(** * homebridge-simple-router-status: the polling and reconciliation core

    A shallow embedding of [src/platform.ts] (class
    [SimpleRouterStatusPlatform]) and the properties of its URL
    normalisation, reachability probe, polling period and accessory
    reconciliation.

    Conventions of the embedding.

    - A JavaScript string is a [string]: a sequence of 8-bit code units.
      Every character that the program or the URL parser's own states
      inspect is ASCII; other characters are only passed on to the host
      and path parsers.
    - A JavaScript integer-valued number is a [Z]; [NaN] is [None].  The
      embedding keeps the mathematical value of a parsed integer (a
      double is exact up to 2^53).
    - A function that throws returns [None] or an explicit error value.
    - The host framework ([api], [hap]) and Node's libraries ([URL],
      [http.get], [https.get]) are not part of the repository.  The
      states of the URL Standard's parser that decide scheme, authority
      and port are written out; its host parser (IDNA, IPv4, IPv6) and
      its path states are section variables, and so is the framework's
      UUID generator.  The network is an argument of the probe.
    - [this.log.*] calls only write to the host's logger and are left
      out. *)

From Stdlib Require Import String Ascii List ZArith NArith Bool Lia.
Import ListNotations.

Local Open Scope string_scope.
Local Open Scope bool_scope.

(* ================================================================== *)
(** ** Characters and decimal numerals *)

Definition code (c : ascii) : N := N_of_ascii c.

Definition isDigit (c : ascii) : bool := ((48 <=? code c) && (code c <=? 57))%N.
Definition isUpper (c : ascii) : bool := ((65 <=? code c) && (code c <=? 90))%N.
Definition isLower (c : ascii) : bool := ((97 <=? code c) && (code c <=? 122))%N.
Definition isAlpha (c : ascii) : bool := isUpper c || isLower c.
Definition isAlnum (c : ascii) : bool := isAlpha c || isDigit c.

(** ASCII lowercase of one code unit. *)
Definition toLower (c : ascii) : ascii :=
  if isUpper c then ascii_of_N (code c + 32) else c.

Fixpoint lowercase (s : string) : string :=
  match s with
  | EmptyString => ""
  | String c rest => String (toLower c) (lowercase rest)
  end.

Definition isEmpty (s : string) : bool :=
  match s with EmptyString => true | String _ _ => false end.

(** The character [c] appended to [s], as [buffer += c] does. *)
Definition snoc (s : string) (c : ascii) : string := s ++ String c "".

(** Value of a digit character. *)
Definition digitValue (c : ascii) : N := (code c - 48)%N.

(** "The mathematical integer value that is represented by the buffer in
    radix-10", most significant digit first. *)
Fixpoint digitsValueFrom (acc : N) (s : string) : N :=
  match s with
  | EmptyString => acc
  | String c rest => digitsValueFrom (10 * acc + digitValue c)%N rest
  end.

Definition digitsValue (s : string) : N := digitsValueFrom 0 s.

(** The longest prefix of digits, and what follows it. *)
Fixpoint takeDigits (s : string) : string :=
  match s with
  | EmptyString => ""
  | String c rest => if isDigit c then String c (takeDigits rest) else ""
  end.

Definition digitChar (d : N) : ascii := ascii_of_N (48 + d).

(** Shortest decimal numeral of a natural number (the serialisation of
    an integer by [String(n)] and by the URL serialiser). *)
Fixpoint decimalFuel (fuel : nat) (n : N) : string :=
  match fuel with
  | O => ""
  | S fuel' =>
      if (n <? 10)%N then String (digitChar n) ""
      else snoc (decimalFuel fuel' (n / 10)%N) (digitChar (n mod 10)%N)
  end.

Definition decimal (n : N) : string := decimalFuel (S (N.to_nat n)) n.

Definition decimalZ (z : Z) : string :=
  if (z <? 0)%Z then String "-" (decimal (Z.to_N (- z))) else decimal (Z.to_N z).

Fixpoint allChars (f : ascii -> bool) (s : string) : bool :=
  match s with
  | EmptyString => true
  | String c rest => f c && allChars f rest
  end.

(** A numeral without a leading zero: ["0"] itself, or digits that do
    not start with ["0"]. *)
Definition canonicalNumeral (s : string) : bool :=
  allChars isDigit s &&
  match s with
  | EmptyString => false
  | String c rest => negb (Ascii.eqb c "0") || isEmpty rest
  end.

(** Digits that do not start with a superfluous zero. *)
Definition noLeadingZero (digits : string) : bool :=
  match digits with
  | EmptyString => false
  | String c rest => negb (Ascii.eqb c "0") || isEmpty rest
  end.

(* ================================================================== *)
(** ** The URL class of Node ([import { URL } from 'url'])

    [new URL(input)] runs the URL Standard's basic URL parser without a
    base URL.  The states that an input with an [http] or [https] scheme
    goes through are written out below; [parseUrl] never passes anything
    else (lemma [parseUrl_passes_http_scheme]). *)

Inductive Scheme := Http | Https.

Definition schemeName (sch : Scheme) : string :=
  match sch with Http => "http" | Https => "https" end.

Definition defaultPort (sch : Scheme) : N :=
  match sch with Http => 80%N | Https => 443%N end.

(** The URL record: scheme, host, port ([None] is the standard's null
    port) and path, the components the program reads.  The URL object
    of Node also keeps the credentials, the query and the fragment of
    the input, which are not represented: two inputs with equal records
    here agree on these four components only. *)
Record URL := mkURL {
  scheme : Scheme;
  host : string;
  portNumber : option N;
  path : string
}.

(** Getters [url.protocol], [url.hostname], [url.port], [url.pathname]. *)
Definition protocol (u : URL) : string := schemeName (scheme u) ++ ":".
Definition hostname (u : URL) : string := host u.
Definition pathname (u : URL) : string := path u.
Definition port (u : URL) : string :=
  match portNumber u with
  | None => ""
  | Some n => decimal n
  end.

Definition isC0ControlOrSpace (c : ascii) : bool := (code c <=? 32)%N.
Definition isTabOrNewline (c : ascii) : bool :=
  ((code c =? 9) || (code c =? 10) || (code c =? 13))%N.

Fixpoint stripLeading (s : string) : string :=
  match s with
  | EmptyString => ""
  | String c rest => if isC0ControlOrSpace c then stripLeading rest else s
  end.

Fixpoint stripTrailing (s : string) : string :=
  match s with
  | EmptyString => ""
  | String c rest =>
      let rest' := stripTrailing rest in
      if isC0ControlOrSpace c && isEmpty rest' then "" else String c rest'
  end.

Fixpoint removeTabNewline (s : string) : string :=
  match s with
  | EmptyString => ""
  | String c rest =>
      if isTabOrNewline c then removeTabNewline rest
      else String c (removeTabNewline rest)
  end.

(** Steps 1 and 3 of the basic URL parser: leading and trailing C0
    control or space are removed, then every ASCII tab or newline. *)
Definition preprocess (input : string) : string :=
  removeTabNewline (stripTrailing (stripLeading input)).

Definition isSchemeChar (c : ascii) : bool :=
  isAlnum c || Ascii.eqb c "+" || Ascii.eqb c "-" || Ascii.eqb c ".".

(** Scheme state: the buffer collects lowercased scheme characters up to
    the colon.  Anything else leads to the no-scheme state, which fails
    without a base URL. *)
Fixpoint schemeState (buffer : string) (s : string) : option (string * string) :=
  match s with
  | EmptyString => None
  | String c rest =>
      if isSchemeChar c then schemeState (snoc buffer (toLower c)) rest
      else if Ascii.eqb c ":" then Some (buffer, rest)
      else None
  end.

(** Scheme start state. *)
Definition schemeStartState (s : string) : option (string * string) :=
  match s with
  | EmptyString => None
  | String c rest =>
      if isAlpha c then schemeState (String (toLower c) "") rest else None
  end.

Definition schemeOfName (name : string) : option Scheme :=
  if String.eqb name "http" then Some Http
  else if String.eqb name "https" then Some Https
  else None.

Definition isSlash (c : ascii) : bool := Ascii.eqb c "/" || Ascii.eqb c "\".

(** Special authority slashes state and special authority ignore slashes
    state: every slash and backslash after the colon is skipped. *)
Fixpoint ignoreSlashes (s : string) : string :=
  match s with
  | EmptyString => ""
  | String c rest => if isSlash c then ignoreSlashes rest else s
  end.

(** The code points that end the authority of a special URL. *)
Definition isAuthorityEnd (c : ascii) : bool :=
  Ascii.eqb c "/" || Ascii.eqb c "?" || Ascii.eqb c "#" || Ascii.eqb c "\".

(** Authority state.  [hostStart] is where the pointer goes back to when
    the authority ends: just after the last [@], or the start.  The
    result is the input from the host on; [None] is the host-missing
    failure after credentials. *)
Fixpoint authorityState (atSignSeen : bool) (buffer hostStart s : string)
  : option string :=
  match s with
  | EmptyString =>
      if atSignSeen && isEmpty buffer then None else Some hostStart
  | String c rest =>
      if Ascii.eqb c "@" then authorityState true "" rest rest
      else if isAuthorityEnd c then
        if atSignSeen && isEmpty buffer then None else Some hostStart
      else authorityState atSignSeen (snoc buffer c) hostStart rest
  end.

(** Where the host state hands over. *)
Inductive AfterHost :=
| ToPort (rest : string)       (* a colon outside brackets was seen *)
| ToPathStart (rest : string). (* end of input or an authority end *)

(** Host state: collects the host buffer.  [None] is the host-missing
    failure (empty buffer). *)
Fixpoint hostState (insideBrackets : bool) (buffer s : string)
  : option (string * AfterHost) :=
  match s with
  | EmptyString =>
      if isEmpty buffer then None else Some (buffer, ToPathStart "")
  | String c rest =>
      if Ascii.eqb c ":" && negb insideBrackets then
        if isEmpty buffer then None else Some (buffer, ToPort rest)
      else if isAuthorityEnd c then
        if isEmpty buffer then None else Some (buffer, ToPathStart s)
      else
        hostState (if Ascii.eqb c "[" then true
                   else if Ascii.eqb c "]" then false
                   else insideBrackets)
                  (snoc buffer c) rest
  end.

(** Port state: collects digits up to the end of the authority; any
    other character is the port-invalid failure. *)
Fixpoint portState (buffer s : string) : option (string * string) :=
  match s with
  | EmptyString => Some (buffer, "")
  | String c rest =>
      if isDigit c then portState (snoc buffer c) rest
      else if isAuthorityEnd c then Some (buffer, s)
      else None
  end.

(** What the port state stores for a buffer of digits: nothing changes
    for an empty buffer, a number above 65535 is the port-out-of-range
    failure, the scheme's default port is stored as null. *)
Definition portOfBuffer (sch : Scheme) (buffer : string) : option (option N) :=
  if isEmpty buffer then Some None
  else
    let p := digitsValue buffer in
    if (65535 <? p)%N then None
    else Some (if (p =? defaultPort sch)%N then None else Some p).

(** The pieces of an input the parser has found when the authority is
    over: scheme, host buffer, port buffer (when a colon followed the
    host) and the rest, which goes to the path states. *)
Record Authority := mkAuthority {
  authScheme : Scheme;
  hostBuffer : string;
  portBuffer : option string;
  afterAuthority : string
}.

(** From the special authority slashes state to the end of the
    authority, for an input whose scheme is [sch]. *)
Definition authorityFrom (sch : Scheme) (afterColon : string) : option Authority :=
  let s := ignoreSlashes afterColon in
  match authorityState false "" s s with
  | None => None
  | Some fromHost =>
      match hostState false "" fromHost with
      | None => None
      | Some (hbuf, ToPathStart rest) => Some (mkAuthority sch hbuf None rest)
      | Some (hbuf, ToPort afterHostColon) =>
          match portState "" afterHostColon with
          | None => None
          | Some (pbuf, rest) => Some (mkAuthority sch hbuf (Some pbuf) rest)
          end
      end
  end.

(** The basic URL parser up to the end of the authority.  [None] is a
    failure of the parser; a text with a scheme other than [http] and
    [https] is outside this model and gives [None] as well. *)
Definition parseAuthority (input : string) : option Authority :=
  match schemeStartState (preprocess input) with
  | None => None
  | Some (name, afterColon) =>
      match schemeOfName name with
      | None => None
      | Some sch => authorityFrom sch afterColon
      end
  end.

(* ================================================================== *)
(** ** Configuration, network and accessories *)

(** [interface RouterConfig] *)
Record RouterConfig := mkRouterConfig {
  name : string;
  homepageUrl : string;
  manufacturer : option string;
  model : option string;
  serial : option string;
  firmwareRevision : option string;
  pollingInterval : option string
}.

(** [http.get] or [https.get]. *)
Inductive GetModule := httpGet | httpsGet.

(** A request: the module used and the [requestOptions] object. *)
Record Request := mkRequest {
  getModule : GetModule;
  reqHostname : string;
  reqPort : string;
  reqPath : string;
  rejectUnauthorized : bool
}.

(** What a request leads to: the response callback is called with a
    response whose [statusCode] is a number or [undefined], or the
    request emits ['error']. *)
Inductive NetworkEvent :=
| Response (statusCode : option Z)
| ErrorEvent (message : string).

Definition Network := Request -> NetworkEvent.

Inductive Error :=
| InvalidUrl (input : string)         (* the TypeError of [new URL] *)
| TransportError (message : string).  (* the error of the ['error'] event *)

(** How a promise settles. *)
Inductive Settled (A : Type) :=
| Resolved (value : A)
| Rejected (error : Error).
Arguments Resolved {A} value.
Arguments Rejected {A} error.

(** JavaScript truthiness of [number | undefined] and the comparisons of
    a present number. *)
Definition truthy (n : option Z) : bool :=
  match n with Some v => negb (v =? 0)%Z | None => false end.
Definition geNum (n : option Z) (k : Z) : bool :=
  match n with Some v => (k <=? v)%Z | None => false end.
Definition ltNum (n : option Z) (k : Z) : bool :=
  match n with Some v => (v <? k)%Z | None => false end.

(** [Characteristic.WiFiSatelliteStatus]: 0, 1 and 2. *)
Inductive WiFiSatelliteStatus := UNKNOWN | CONNECTED | NOT_CONNECTED.

(** The WiFiSatellite service of an accessory: its Name, the value of
    its WiFiSatelliteStatus characteristic and the router its [onGet]
    handler probes. *)
Record WiFiSatellite := mkWiFiSatellite {
  satelliteName : string;
  satelliteStatus : WiFiSatelliteStatus;
  satelliteOnGet : option RouterConfig
}.

(** [PlatformAccessory], with the values of its AccessoryInformation
    characteristics. *)
Record PlatformAccessory := mkPlatformAccessory {
  displayName : string;
  UUID : string;
  contextDevice : option RouterConfig;
  Manufacturer : string;
  Model : string;
  SerialNumber : string;
  FirmwareRevision : string;
  wiFiSatelliteService : option WiFiSatellite
}.

(** [new this.api.platformAccessory(name, uuid)].  The information
    values the framework starts with are overwritten before anything
    reads them.  The framework's constructor throws for an empty display
    name; this definition is the accessory it returns otherwise, and the
    statements about a pass that creates accessories assume [allNamed]. *)
Definition newPlatformAccessory (displayName uuid : string) : PlatformAccessory :=
  mkPlatformAccessory displayName uuid None "" "" "" "" None.

Definition orDefault (value : option string) (default : string) : string :=
  match value with Some v => v | None => default end.

(** What the first loop of [discoverDevices] does to the accessory of
    [router]: [context.device], the four information characteristics,
    the WiFiSatellite service (added when missing), its Name and its
    [onGet] handler.  The strings of the characteristics are the values
    handed to [setCharacteristic]; the framework validates them on its
    side (it cuts long strings and refuses some values), and no
    statement below relies on what it stores. *)
Definition configureFor (router : RouterConfig) (a : PlatformAccessory)
  : PlatformAccessory :=
  mkPlatformAccessory
    (displayName a) (UUID a) (Some router)
    (orDefault (manufacturer router) "Default-Manufacturer")
    (orDefault (model router) "Default-Model")
    (orDefault (serial router) "Default-Serial")
    (orDefault (firmwareRevision router) "1.0.0")
    (Some (mkWiFiSatellite
             (name router)
             (match wiFiSatelliteService a with
              | Some service => satelliteStatus service
              | None => UNKNOWN
              end)
             (Some router))).

(** [characteristic.updateValue(v)] on the accessory's WiFiSatellite
    service. *)
Definition updateValue (v : WiFiSatelliteStatus) (a : PlatformAccessory)
  : PlatformAccessory :=
  mkPlatformAccessory
    (displayName a) (UUID a) (contextDevice a)
    (Manufacturer a) (Model a) (SerialNumber a) (FirmwareRevision a)
    (match wiFiSatelliteService a with
     | Some service =>
         Some (mkWiFiSatellite (satelliteName service) v (satelliteOnGet service))
     | None => None
     end).

(** A repeating timer started by [setInterval]: the router its callback
    probes, the accessory whose service it updates, and its period. *)
Record Timer := mkTimer {
  timerRouter : RouterConfig;
  timerAccessory : nat;
  timerPeriod : Z
}.

(** Calls to the host framework.  Their first two arguments are the
    constants [PLUGIN_NAME] and [PLATFORM_NAME]; the third is the list
    of accessories. *)
Inductive ApiCall :=
| registerPlatformAccessories (batch : list nat)
| unregisterPlatformAccessories (batch : list nat).

(** The state of the platform and of the framework around it.
    Accessories are objects: [heap] holds them, a handle is an index
    into it.  [accessories] is [this.accessories], [timers] the
    intervals started so far (the program never clears one), [calls]
    the registration calls made so far, in order. *)
Record Platform := mkPlatform {
  heap : list PlatformAccessory;
  accessories : list nat;
  timers : list Timer;
  calls : list ApiCall
}.

Definition newPlatform : Platform := mkPlatform [] [] [] [].

(** [configureAccessory(accessory)]: the host hands over an accessory
    restored from its cache. *)
Definition configureAccessory (p : Platform) (accessory : PlatformAccessory)
  : Platform :=
  mkPlatform (heap p ++ [accessory])%list
             (accessories p ++ [List.length (heap p)])%list
             (timers p) (calls p).

(** [l[i] = f(l[i])]; nothing happens out of range. *)
Fixpoint updateAt {A : Type} (l : list A) (i : nat) (f : A -> A) : list A :=
  match l, i with
  | [], _ => []
  | x :: rest, O => f x :: rest
  | x :: rest, S i' => x :: updateAt rest i' f
  end.

(* ------------------------------------------------------------------ *)
(** *** [parseInt(string, 10)] and the polling period *)

(** White space and line terminators among the 8-bit code units. *)
Definition isWhiteSpace (c : ascii) : bool :=
  ((code c =? 9) || (code c =? 10) || (code c =? 11) || (code c =? 12)
   || (code c =? 13) || (code c =? 32) || (code c =? 160))%N.

Fixpoint trimStart (s : string) : string :=
  match s with
  | EmptyString => ""
  | String c rest => if isWhiteSpace c then trimStart rest else s
  end.

(** [parseInt(s, 10)]: leading white space is skipped, one sign is
    read, then the longest run of digits; [None] is [NaN].  The result
    is the integer the digits denote, which is the JavaScript number up
    to 2^53 in absolute value; beyond, [parseInt] rounds to a double,
    and the statements below are restricted to that range. *)
Definition parseInt10 (s : string) : option Z :=
  let trimmed := trimStart s in
  let sign :=
    match trimmed with
    | String c _ => if Ascii.eqb c "-" then (-1)%Z else 1%Z
    | EmptyString => 1%Z
    end in
  let unsigned :=
    match trimmed with
    | String c rest =>
        if Ascii.eqb c "+" || Ascii.eqb c "-" then rest else trimmed
    | EmptyString => trimmed
    end in
  let digits := takeDigits unsigned in
  if isEmpty digits then None
  else Some (sign * Z.of_N (digitsValue digits))%Z.

(** [parsedPollingInterval] and [effectivePollingInterval]. *)
Definition parsedPollingInterval (router : RouterConfig) : option Z :=
  parseInt10 (orDefault (pollingInterval router) "NaN").

Definition effectivePollingInterval (router : RouterConfig) : Z :=
  match parsedPollingInterval router with
  | None => 5000%Z
  | Some parsed => parsed
  end.

(** The request [getRouterStatus] makes for a parsed URL: [getModule]
    chosen by the protocol, and the [requestOptions] object. *)
Definition requestFor (url : URL) : Request :=
  let getModule :=
    if String.eqb (protocol url) "https:" then httpsGet else httpGet in
  mkRequest getModule (hostname url) (port url) (pathname url) false.

(* ================================================================== *)
(** ** The platform *)

Section Program.

(** The URL Standard's host parser applied to a host buffer of a
    special URL ([None] is failure), and its path, query and fragment
    states applied to what follows the authority, giving the
    serialised path.  The path states never fail. *)
Variable hostParser : string -> option string.
Variable pathParser : string -> string.

(** [new URL(input)]; [None] stands for the [TypeError] it throws. *)
Definition URL_new (input : string) : option URL :=
  match parseAuthority input with
  | None => None
  | Some a =>
      match hostParser (hostBuffer a) with
      | None => None
      | Some h =>
          match portOfBuffer (authScheme a)
                  (match portBuffer a with Some b => b | None => "" end) with
          | None => None
          | Some p =>
              Some (mkURL (authScheme a) h p (pathParser (afterAuthority a)))
          end
      end
  end.

(** The setter [url.port = value]: the port state run with a state
    override.  A URL without a host cannot have a port; the empty
    string resets the port; otherwise the leading digits are read, the
    setter does nothing when there are none or when they exceed 65535,
    and the scheme's default port is stored as null. *)
Definition setPort (u : URL) (value : string) : URL :=
  if isEmpty (host u) then u
  else if isEmpty value then mkURL (scheme u) (host u) None (path u)
  else
    let buffer := takeDigits (removeTabNewline value) in
    if isEmpty buffer then u
    else
      match portOfBuffer (scheme u) buffer with
      | None => u
      | Some p => mkURL (scheme u) (host u) p (path u)
      end.

(** [/^https?:\/\//i.test(inputUrl)] *)
Fixpoint startsWithNoCase (pattern s : string) : bool :=
  match pattern with
  | EmptyString => true
  | String p pattern' =>
      match s with
      | EmptyString => false
      | String c s' => Ascii.eqb (toLower c) p && startsWithNoCase pattern' s'
      end
  end.

Definition hasHttpPrefix (inputUrl : string) : bool :=
  startsWithNoCase "http://" inputUrl || startsWithNoCase "https://" inputUrl.

(** [parseUrl(inputUrl: string): URL] *)
Definition parseUrl (inputUrl : string) : option URL :=
  match (if negb (hasHttpPrefix inputUrl)
         then URL_new ("http://" ++ inputUrl)
         else URL_new inputUrl) with
  | None => None
  | Some url =>
      Some (if isEmpty (port url) then
              if String.eqb (protocol url) "http:" then setPort url "80"
              else if String.eqb (protocol url) "https:" then setPort url "443"
              else url
            else url)
  end.

(* ---------------------------------------------------------------- *)
(** *** The probe: [getRouterStatus] *)

(** [getRouterStatus(inputUrl)] settles the promise it returns from the
    first thing the request does: the response callback resolves it,
    the ['error'] event rejects it.  An exception of [parseUrl] inside
    the promise's executor rejects it before any request is made.  The
    first component lists the requests issued. *)
Definition getRouterStatus (net : Network) (inputUrl : string)
  : list Request * Settled bool :=
  match parseUrl inputUrl with
  | None => ([], Rejected (InvalidUrl inputUrl))
  | Some url =>
      let requestOptions := requestFor url in
      ([requestOptions],
       match net requestOptions with
       | Response statusCode =>
           if truthy statusCode && geNum statusCode 400 && ltNum statusCode 600
           then Resolved false
           else Resolved true
       | ErrorEvent message => Rejected (TransportError message)
       end)
  end.

(** The [onGet] handler of the WiFiSatelliteStatus characteristic
    registered for [router]. *)
Definition onGet (net : Network) (router : RouterConfig)
  : list Request * Settled WiFiSatelliteStatus :=
  let (requests, outcome) := getRouterStatus net (homepageUrl router) in
  (requests,
   match outcome with
   | Resolved status => Resolved (if status then CONNECTED else NOT_CONNECTED)
   | Rejected _ => Resolved NOT_CONNECTED
   end).

(* ---------------------------------------------------------------- *)
(** *** [discoverDevices] *)

(** [api.hap.uuid.generate] *)
Variable generate : string -> string.

Definition uuidOf (router : RouterConfig) : string :=
  generate ("homepageUrl_" ++ homepageUrl router).

(** [this.accessories.find((accessory) => accessory.UUID === uuid)] *)
Definition findAccessory (p : Platform) (uuid : string) : option nat :=
  find (fun h => match nth_error (heap p) h with
                 | Some accessory => String.eqb (UUID accessory) uuid
                 | None => false
                 end)
       (accessories p).

(** The body of the first loop of [discoverDevices] for one router. *)
Definition setupRouter (p : Platform) (router : RouterConfig) : Platform :=
  let uuid := uuidOf router in
  let existingAccessory := findAccessory p uuid in
  let accessory :=
    match existingAccessory with
    | Some h => h
    | None => List.length (heap p)
    end in
  let heap1 :=
    match existingAccessory with
    | Some _ => heap p
    | None => (heap p ++ [newPlatformAccessory (name router) uuid])%list
    end in
  mkPlatform
    (updateAt heap1 accessory (configureFor router))
    (accessories p)
    (timers p ++ [mkTimer router accessory (effectivePollingInterval router)])%list
    (calls p ++
       match existingAccessory with
       | Some _ => []
       | None => [registerPlatformAccessories [accessory]]
       end)%list.

(** [routers.some((router) => generate(...) === accessory.UUID)] *)
Definition isConfigured (routers : list RouterConfig) (uuid : string) : bool :=
  existsb (fun router => String.eqb (uuidOf router) uuid) routers.

(** The body of the second loop for one cached accessory. *)
Definition removeIfMissing (routers : list RouterConfig) (p : Platform)
           (h : nat) : Platform :=
  match nth_error (heap p) h with
  | Some accessory =>
      if negb (isConfigured routers (UUID accessory))
      then mkPlatform (heap p) (accessories p) (timers p)
                      (calls p ++ [unregisterPlatformAccessories [h]])%list
      else p
  | None => p
  end.

(** [discoverDevices()]: [configRouters] is [this.config.routers]. *)
Definition discoverDevices (p : Platform)
           (configRouters : option (list RouterConfig)) : Platform :=
  let routers := match configRouters with Some l => l | None => [] end in
  let p1 := fold_left setupRouter routers p in
  fold_left (removeIfMissing routers) (accessories p1) p1.

(** The platform after the host has handed over the cached accessories
    ([configureAccessory] once for each) and fired
    [didFinishLaunching]. *)
Definition launch (cached : list PlatformAccessory)
           (configRouters : option (list RouterConfig)) : Platform :=
  discoverDevices (fold_left configureAccessory cached newPlatform)
                  configRouters.

(* ---------------------------------------------------------------- *)
(** *** The interval callback *)

(** One firing of the callback given to [setInterval] for timer [t].
    The callback is an async function: the third component is how the
    promise it returns settles. *)
Definition tick (net : Network) (p : Platform) (t : Timer)
  : Platform * list Request * Settled unit :=
  let (requests, outcome) :=
    getRouterStatus net (homepageUrl (timerRouter t)) in
  match outcome with
  | Resolved status =>
      (mkPlatform
         (updateAt (heap p) (timerAccessory t)
            (updateValue (if status then CONNECTED else NOT_CONNECTED)))
         (accessories p) (timers p) (calls p),
       requests, Resolved tt)
  | Rejected _ => (p, requests, Resolved tt)
  end.

(** The event loop firing timers: each entry of the schedule names the
    timer that fires (its index in [timers]) and the network it meets.
    A firing whose promise rejects would be an unhandled rejection,
    which ends the process: the run stops with [None]. *)
Fixpoint runTicks (p : Platform) (schedule : list (nat * Network))
  : option Platform :=
  match schedule with
  | [] => Some p
  | (i, net) :: later =>
      match nth_error (timers p) i with
      | None => runTicks p later
      | Some t =>
          match tick net p t with
          | (p', _, Resolved _) => runTicks p' later
          | (_, _, Rejected _) => None
          end
      end
  end.

End Program.

(* ================================================================== *)
(** ** Notions used in the statements *)

(** The text handed to [new URL] by [parseUrl]. *)
Definition urlText (inputUrl : string) : string :=
  if negb (hasHttpPrefix inputUrl) then "http://" ++ inputUrl else inputUrl.

(** The characters of [s] before its first colon: the scheme an input
    carries when it has one. *)
Fixpoint beforeColon (s : string) : string :=
  match s with
  | EmptyString => ""
  | String c rest => if Ascii.eqb c ":" then "" else String c (beforeColon rest)
  end.

(** Trailing strip and tab removal, applied after the first character. *)
Definition tidy (s : string) : string := removeTabNewline (stripTrailing s).

(** Host text without anything the authority states react to: no C0
    control or space, no [/ \ ? #], no colon and no [@]. *)
Definition isPlainHostChar (c : ascii) : bool :=
  negb (isC0ControlOrSpace c) && negb (isAuthorityEnd c) &&
  negb (Ascii.eqb c ":") && negb (Ascii.eqb c "@").

Definition plainHostText (s : string) : bool := allChars isPlainHostChar s.

(** The batches of the registration and unregistration calls, in the
    order of the calls. *)
Definition registered (p : Platform) : list (list nat) :=
  flat_map (fun c => match c with
                     | registerPlatformAccessories batch => [batch]
                     | unregisterPlatformAccessories _ => []
                     end) (calls p).

Definition unregistered (p : Platform) : list (list nat) :=
  flat_map (fun c => match c with
                     | registerPlatformAccessories _ => []
                     | unregisterPlatformAccessories batch => [batch]
                     end) (calls p).

(** The status an accessory reports. *)
Definition reportedStatus (p : Platform) (h : nat) : option WiFiSatelliteStatus :=
  match nth_error (heap p) h with
  | Some accessory =>
      match wiFiSatelliteService accessory with
      | Some service => Some (satelliteStatus service)
      | None => None
      end
  | None => None
  end.

(** *** The reconciliation of the specification

    [reconcile] follows section 4.3 of the specification: a configured
    device whose identity is known is kept on the known handle, any
    other is added on a new handle, and a known accessory whose
    identity no configured device has is removed. *)

(** The handle of the first cached accessory with this UUID. *)
Definition findCached (cached : list PlatformAccessory) (id : string) : option nat :=
  find (fun h => match nth_error cached h with
                 | Some accessory => String.eqb (UUID accessory) id
                 | None => false
                 end)
       (seq 0 (List.length cached)).

Section ReconciliationSpec.

Variable generate : string -> string.

(** Each configured router with its handle, and whether that handle is
    a known one; [next] is the next new handle. *)
Fixpoint assign (cached : list PlatformAccessory) (next : nat)
         (routers : list RouterConfig) : list (RouterConfig * nat * bool) :=
  match routers with
  | [] => []
  | router :: rest =>
      match findCached cached (uuidOf generate router) with
      | Some h => (router, h, true) :: assign cached next rest
      | None => (router, next, false) :: assign cached (S next) rest
      end
  end.

Record Reconciliation := mkReconciliation {
  keep : list (RouterConfig * nat);
  add : list (RouterConfig * nat);
  remove : list nat
}.

Definition reconcile (routers : list RouterConfig)
           (cached : list PlatformAccessory) : Reconciliation :=
  let assigned := assign cached (List.length cached) routers in
  mkReconciliation
    (map fst (filter (fun e => snd e) assigned))
    (map fst (filter (fun e => negb (snd e)) assigned))
    (filter (fun h => match nth_error cached h with
                      | Some accessory =>
                          negb (isConfigured generate routers (UUID accessory))
                      | None => false
                      end)
            (seq 0 (List.length cached))).

End ReconciliationSpec.

(** The platform still knows the cached accessories under their
    handles and UUIDs; [created] are the UUIDs of the accessories made
    since. *)
Definition knows (cached : list PlatformAccessory) (p : Platform) : Prop :=
  accessories p = seq 0 (List.length cached) /\
  exists created, map UUID (heap p) = (map UUID cached ++ created)%list.

Definition timerOf (e : RouterConfig * nat * bool) : Timer :=
  mkTimer (fst (fst e)) (snd (fst e)) (effectivePollingInterval (fst (fst e))).

Definition registrationOf (e : RouterConfig * nat * bool) : list ApiCall :=
  if snd e then [] else [registerPlatformAccessories [snd (fst e)]].

(* ================================================================== *)
(** ** Instances for the examples

    The examples below run the program on hosts such as [192.168.1.1]
    and [router.local].  For a host of ASCII letters, digits, dots and
    hyphens that is a domain name or a dotted-decimal IPv4 address in
    its usual form, the URL Standard's host parser returns the host in
    lowercase; for the text after the authority, when it is empty or a
    single slash, the path is [/]. *)

Definition isHostNameChar (c : ascii) : bool :=
  isAlnum c || Ascii.eqb c "." || Ascii.eqb c "-".

Definition exampleHostParser (s : string) : option string :=
  if negb (isEmpty s) && allChars isHostNameChar s then Some (lowercase s)
  else None.

Definition examplePathParser (rest : string) : string := "/".

(** A UUID generator for the examples: distinct seeds get distinct
    identifiers. *)
Definition exampleGenerate (seed : string) : string := seed.

Definition routerA : RouterConfig :=
  mkRouterConfig "Router A" "192.168.1.1" None None None None None.

Definition routerB : RouterConfig :=
  mkRouterConfig "Router B" "router.local" None None None None (Some "abc").

Definition routerC : RouterConfig :=
  mkRouterConfig "Router C" "10.0.0.1:8080" None None None None (Some "-250").

(** A network that answers every request with the status code, and one
    that refuses every connection. *)
Definition respond (code : Z) : Network := fun _ => Response (Some code).
Definition refuse : Network := fun _ => ErrorEvent "connect ECONNREFUSED".

(** The platform launched for [routerA] alone, with an empty cache, and
    the same after a first tick answered with 200. *)
Definition launchedA : Platform := launch exampleGenerate [] (Some [routerA]).

Definition timerA : Timer := mkTimer routerA 0 5000.

Definition polledA : Platform :=
  fst (fst (tick exampleHostParser examplePathParser (respond 200) launchedA timerA)).

(* ================================================================== *)
(** ** Notions used in the further properties *)

(** Text that stays inside the authority: no C0 control or space and
    none of [/ \ ? #].  Colons and [@] are allowed, as in credentials. *)
Definition isAuthorityChar (c : ascii) : bool :=
  negb (isC0ControlOrSpace c) && negb (isAuthorityEnd c).

(** Plain host text without an opening bracket, so that a colon after it
    starts the port. *)
Definition isUnbracketedHostChar (c : ascii) : bool :=
  isPlainHostChar c && negb (Ascii.eqb c "[").

(** The last router that the first loop of [discoverDevices] has set up
    on handle [h], if any. *)
Fixpoint lastFor (assigned : list (RouterConfig * nat * bool)) (h : nat)
  : option RouterConfig :=
  match assigned with
  | [] => None
  | e :: rest =>
      match lastFor rest h with
      | Some r => Some r
      | None => if Nat.eqb (snd (fst e)) h then Some (fst (fst e)) else None
      end
  end.

(** The accessory a router is set up on: the one found on the heap, or
    a new one. *)
Definition accessoryFor (generate : string -> string) (router : RouterConfig)
           (found : option PlatformAccessory) : PlatformAccessory :=
  match found with
  | Some accessory => accessory
  | None => newPlatformAccessory (name router) (uuidOf generate router)
  end.

(** Whether text starts with a digit. *)
Definition startsWithDigit (s : string) : bool :=
  match s with
  | EmptyString => false
  | String c _ => isDigit c
  end.

(** Whether the accessory on handle [h] has a WiFiSatellite service. *)
Definition hasSatellite (p : Platform) (h : nat) : bool :=
  match nth_error (heap p) h with
  | Some accessory =>
      match wiFiSatelliteService accessory with
      | Some _ => true
      | None => false
      end
  | None => false
  end.

(** The status a response with this status code is reported as. *)
Definition statusOfCode (statusCode : option Z) : WiFiSatelliteStatus :=
  if truthy statusCode && geNum statusCode 400 && ltNum statusCode 600
  then NOT_CONNECTED else CONNECTED.

(** Two states of an accessory that differ at most in the status its
    WiFiSatellite service reports. *)
Definition sameButStatus (a b : PlatformAccessory) : Prop :=
  displayName a = displayName b /\ UUID a = UUID b /\
  contextDevice a = contextDevice b /\
  Manufacturer a = Manufacturer b /\ Model a = Model b /\
  SerialNumber a = SerialNumber b /\
  FirmwareRevision a = FirmwareRevision b /\
  option_map satelliteName (wiFiSatelliteService a)
  = option_map satelliteName (wiFiSatelliteService b) /\
  option_map satelliteOnGet (wiFiSatelliteService a)
  = option_map satelliteOnGet (wiFiSatelliteService b).

(** More examples: a router without an address, one whose polling
    interval carries a unit, and two cached accessories with the UUID
    of [routerA], the first of which reports CONNECTED. *)
Definition blankRouter : RouterConfig :=
  mkRouterConfig "Blank" "  " None None None None None.

Definition unitRouter : RouterConfig :=
  mkRouterConfig "Unit" "10.0.0.3" (Some "Acme") None None None (Some "  5000ms").

Definition cachedA : PlatformAccessory :=
  mkPlatformAccessory "Living room router" (uuidOf exampleGenerate routerA)
    None "" "" "" "" (Some (mkWiFiSatellite "Old name" CONNECTED None)).

Definition cachedCopy : PlatformAccessory :=
  mkPlatformAccessory "Copy" (uuidOf exampleGenerate routerA)
    None "" "" "" "" None.

(** Every configured router has a name.  The accessory constructor of
    the framework throws for an empty display name, which would stop
    [discoverDevices] where it stands; [setupRouter] describes the pass
    for named routers. *)
Definition allNamed (routers : list RouterConfig) : Prop :=
  forall router, In router routers -> name router <> "".

(** What follows one leading sign, if there is one. *)
Definition afterSign (s : string) : string :=
  match s with
  | EmptyString => ""
  | String c rest => if Ascii.eqb c "+" || Ascii.eqb c "-" then rest else s
  end.

(** Text that starts with an integer: white space, at most one sign,
    then a digit. *)
Definition hasLeadingInteger (s : string) : bool :=
  startsWithDigit (afterSign (trimStart s)).

(** Text that is an integer numeral and nothing else: at most one sign
    and then only digits, at least one. *)
Definition isIntegerNumeral (s : string) : bool :=
  negb (isEmpty (afterSign s)) && allChars isDigit (afterSign s).

(** The configured routers without a cached accessory of their UUID. *)
Definition uncached (generate : string -> string)
           (cached : list PlatformAccessory) (routers : list RouterConfig)
  : list RouterConfig :=
  filter (fun router => match findCached cached (uuidOf generate router) with
                        | Some _ => false
                        | None => true
                        end) routers.

(** One more example: a polling interval with text after the integer. *)
Definition suffixRouter : RouterConfig :=
  mkRouterConfig "Suffix" "10.0.0.4" None None None None (Some "12abc").

(* ================================================================== *)
(** ** Strings, digits and numerals *)

Lemma isEmpty_true (s : string) : isEmpty s = true <-> s = "".
Proof. destruct s; simpl; split; congruence. Qed.

Lemma isEmpty_false (s : string) : isEmpty s = false <-> s <> "".
Proof. destruct s; simpl; split; congruence. Qed.

Lemma append_empty_r (s : string) : s ++ "" = s.
Proof. induction s as [|c s IH]; simpl; [reflexivity | now rewrite IH]. Qed.

Lemma append_assoc (a b c : string) : (a ++ b) ++ c = a ++ (b ++ c).
Proof. induction a as [|x a IH]; simpl; [reflexivity | now rewrite IH]. Qed.

Lemma snoc_append (a b : string) (c : ascii) : snoc a c ++ b = a ++ String c b.
Proof. unfold snoc. now rewrite append_assoc. Qed.

Lemma snoc_not_empty (s : string) (c : ascii) : snoc s c <> "".
Proof. destruct s; discriminate. Qed.

Lemma isEmpty_snoc (s : string) (c : ascii) : isEmpty (snoc s c) = false.
Proof. destruct s; reflexivity. Qed.

(** Every string is empty or ends in a character. *)
Lemma string_snoc_cases (s : string) :
  s = "" \/ exists s' c, s = snoc s' c.
Proof.
  induction s as [|x s IH]; [now left | right].
  destruct IH as [-> | (s' & c & ->)].
  - now exists "", x.
  - now exists (String x s'), c.
Qed.

Lemma length_snoc (s : string) (c : ascii) :
  String.length (snoc s c) = S (String.length s).
Proof.
  unfold snoc. induction s as [|x s IH]; simpl; [reflexivity | now rewrite IH].
Qed.

(** Induction from the right end of a string. *)
Lemma string_snoc_ind (P : string -> Prop) :
  P "" -> (forall s c, P s -> P (snoc s c)) -> forall s, P s.
Proof.
  intros H0 Hs s.
  remember (String.length s) as n eqn:Hn.
  revert s Hn.
  induction n as [|n IH]; intros s Hn.
  - destruct s; [exact H0 | discriminate].
  - destruct (string_snoc_cases s) as [-> | (s' & c & ->)]; [discriminate|].
    apply Hs, IH. rewrite length_snoc in Hn. congruence.
Qed.

Lemma allChars_snoc f s c : allChars f (snoc s c) = allChars f s && f c.
Proof.
  unfold snoc. induction s as [|x s IH]; simpl.
  - now rewrite andb_true_r.
  - rewrite IH. now rewrite andb_assoc.
Qed.

Lemma isDigit_bounds (c : ascii) :
  isDigit c = true <-> (48 <= code c <= 57)%N.
Proof.
  unfold isDigit. rewrite andb_true_iff, !N.leb_le. tauto.
Qed.

Lemma digitChar_code (d : N) : (d < 10)%N -> code (digitChar d) = (48 + d)%N.
Proof.
  intros H. unfold code, digitChar. apply N_ascii_embedding. lia.
Qed.

Lemma digitChar_isDigit (d : N) : (d < 10)%N -> isDigit (digitChar d) = true.
Proof.
  intros H. apply isDigit_bounds. rewrite digitChar_code by exact H. lia.
Qed.

Lemma digitValue_digitChar (d : N) : (d < 10)%N -> digitValue (digitChar d) = d.
Proof.
  intros H. unfold digitValue. rewrite digitChar_code by exact H. lia.
Qed.

Lemma digitChar_digitValue (c : ascii) :
  isDigit c = true -> digitChar (digitValue c) = c.
Proof.
  intros H. apply isDigit_bounds in H. unfold digitChar, digitValue.
  replace (48 + (code c - 48))%N with (code c) by lia.
  apply ascii_N_embedding.
Qed.

Lemma digitValue_lt_10 (c : ascii) : isDigit c = true -> (digitValue c < 10)%N.
Proof. intros H. apply isDigit_bounds in H. unfold digitValue. lia. Qed.

Lemma digitsValueFrom_snoc (s : string) (c : ascii) (acc : N) :
  digitsValueFrom acc (snoc s c) = (10 * digitsValueFrom acc s + digitValue c)%N.
Proof.
  unfold snoc. revert acc.
  induction s as [|x s IH]; intros acc; simpl; [reflexivity | apply IH].
Qed.

Lemma digitsValue_snoc (s : string) (c : ascii) :
  digitsValue (snoc s c) = (10 * digitsValue s + digitValue c)%N.
Proof. apply digitsValueFrom_snoc. Qed.

Lemma takeDigits_all (s : string) : allChars isDigit s = true -> takeDigits s = s.
Proof.
  induction s as [|c s IH]; simpl; [reflexivity|].
  intros H. apply andb_true_iff in H as [Hc Hs]. rewrite Hc. now rewrite IH.
Qed.

Lemma takeDigits_allDigits (s : string) : allChars isDigit (takeDigits s) = true.
Proof.
  induction s as [|c s IH]; simpl; [reflexivity|].
  destruct (isDigit c) eqn:E; simpl; [now rewrite E | reflexivity].
Qed.

(** The fuel of [decimal] is enough: one step of the numeral. *)
Lemma decimalFuel_enough (f1 f2 : nat) (n : N) :
  (N.to_nat n < f1)%nat -> (N.to_nat n < f2)%nat ->
  decimalFuel f1 n = decimalFuel f2 n.
Proof.
  revert f2 n. induction f1 as [|f1 IH]; intros f2 n H1 H2; [lia|].
  destruct f2 as [|f2]; [lia|]. simpl.
  destruct (n <? 10)%N eqn:E; [reflexivity|].
  apply N.ltb_ge in E.
  assert (n / 10 < n)%N by (apply N.div_lt; lia).
  f_equal. apply IH; lia.
Qed.

Lemma decimal_small (n : N) : (n < 10)%N -> decimal n = String (digitChar n) "".
Proof.
  intros H. unfold decimal. simpl. apply N.ltb_lt in H. now rewrite H.
Qed.

Lemma decimal_step (n : N) :
  (10 <= n)%N -> decimal n = snoc (decimal (n / 10)) (digitChar (n mod 10)).
Proof.
  intros H. unfold decimal at 1. simpl.
  assert (E : (n <? 10)%N = false) by (apply N.ltb_ge; exact H).
  rewrite E. f_equal. unfold decimal.
  assert (n / 10 < n)%N by (apply N.div_lt; lia).
  apply decimalFuel_enough; lia.
Qed.

Lemma decimal_spec (n : N) :
  allChars isDigit (decimal n) = true /\ decimal n <> "" /\
  digitsValue (decimal n) = n.
Proof.
  induction n as [n IH] using (well_founded_induction N.lt_wf_0).
  destruct (N.ltb_spec n 10) as [Hlt | Hge].
  - rewrite decimal_small by exact Hlt. simpl.
    rewrite digitChar_isDigit by exact Hlt.
    repeat split; [discriminate|].
    unfold digitsValue. simpl. now rewrite digitValue_digitChar.
  - rewrite decimal_step by exact Hge.
    assert (Hd : (n / 10 < n)%N) by (apply N.div_lt; lia).
    destruct (IH _ Hd) as (Ha & _ & Hv).
    assert (Hm : (n mod 10 < 10)%N) by (apply N.mod_lt; lia).
    rewrite allChars_snoc, Ha, digitChar_isDigit by exact Hm.
    repeat split; [apply snoc_not_empty|].
    rewrite digitsValue_snoc, Hv, digitValue_digitChar by exact Hm.
    rewrite (N.div_mod n 10) at 3 by lia. reflexivity.
Qed.

Lemma decimal_not_empty (n : N) : isEmpty (decimal n) = false.
Proof. apply isEmpty_false, decimal_spec. Qed.

Lemma digitsValueFrom_ge (s : string) (acc : N) : (acc <= digitsValueFrom acc s)%N.
Proof.
  revert acc. induction s as [|c s IH]; intros acc; cbn [digitsValueFrom]; [lia|].
  specialize (IH (10 * acc + digitValue c)%N). lia.
Qed.

Lemma canonicalNumeral_snoc (s : string) (c : ascii) :
  s <> "" -> canonicalNumeral (snoc s c) = true ->
  canonicalNumeral s = true /\ isDigit c = true /\ (1 <= digitsValue s)%N.
Proof.
  intros Hne H. unfold canonicalNumeral in *.
  apply andb_true_iff in H as [Hall Hlead].
  rewrite allChars_snoc in Hall. apply andb_true_iff in Hall as [Hall Hc].
  destruct s as [|x s]; [congruence|].
  change (snoc (String x s) c) with (String x (snoc s c)) in Hlead.
  cbv beta iota in Hlead.
  rewrite isEmpty_snoc, orb_false_r in Hlead.
  rewrite Hall, Hlead. simpl. repeat split; try assumption.
  simpl in Hall. apply andb_true_iff in Hall as [Hx _].
  apply isDigit_bounds in Hx.
  assert (Hx0 : code x <> 48%N).
  { intros E. apply negb_true_iff, Ascii.eqb_neq in Hlead. apply Hlead.
    rewrite <- (ascii_N_embedding x). unfold code in E. now rewrite E. }
  unfold digitsValue. simpl.
  pose proof (digitsValueFrom_ge s (digitValue x)) as Hge.
  unfold digitValue in *. lia.
Qed.

(** Printing the value of a canonical numeral gives the numeral back. *)
Lemma decimal_digitsValue (s : string) :
  canonicalNumeral s = true -> decimal (digitsValue s) = s.
Proof.
  induction s as [|s c IH] using string_snoc_ind.
  - discriminate.
  - intros H. destruct s as [|x s].
    + unfold canonicalNumeral in H. simpl in H.
      rewrite andb_true_r in H. apply andb_true_iff in H as [Hc _].
      unfold digitsValue. simpl.
      rewrite decimal_small by (apply digitValue_lt_10; exact Hc).
      now rewrite digitChar_digitValue.
    + apply canonicalNumeral_snoc in H as (Hs & Hc & Hv); [|discriminate].
      rewrite digitsValue_snoc.
      pose proof (digitValue_lt_10 c Hc) as Hd.
      rewrite decimal_step by lia.
      replace ((10 * digitsValue (String x s) + digitValue c) / 10)%N
        with (digitsValue (String x s)).
      2:{ symmetry. rewrite N.mul_comm, N.div_add_l by lia.
          rewrite (N.div_small (digitValue c)) by lia. lia. }
      replace ((10 * digitsValue (String x s) + digitValue c) mod 10)%N
        with (digitValue c).
      2:{ symmetry. rewrite N.add_comm, N.mul_comm, N.Div0.mod_add.
          apply N.mod_small; lia. }
      rewrite IH by exact Hs. now rewrite digitChar_digitValue.
Qed.

(* ================================================================== *)
(** ** Facts about characters *)

Ltac all_chars c :=
  destruct c as [[] [] [] [] [] [] [] []]; vm_compute; intuition congruence.

Lemma isAlpha_facts (c : ascii) :
  isAlpha c = true ->
  isC0ControlOrSpace c = false /\ isTabOrNewline c = false /\
  isSchemeChar c = true /\ Ascii.eqb c ":" = false.
Proof. all_chars c. Qed.

Lemma isUpper_toLower (c : ascii) : isUpper c = true -> isLower (toLower c) = true.
Proof. all_chars c. Qed.

Lemma toLower_letter (c : ascii) : isLower (toLower c) = true -> isAlpha c = true.
Proof. all_chars c. Qed.

(** Only a character that is not a lowercase letter is the lowercase of
    itself alone. *)
Lemma toLower_other (c d : ascii) : isLower d = false -> toLower c = d -> c = d.
Proof.
  intros Hd H. destruct (isUpper c) eqn:E.
  - apply isUpper_toLower in E. congruence.
  - unfold toLower in H. now rewrite E in H.
Qed.

Lemma space_not_letter (c : ascii) :
  isC0ControlOrSpace c = true -> isLower (toLower c) = false.
Proof. all_chars c. Qed.

Lemma tab_is_space (c : ascii) : isTabOrNewline c = true -> isC0ControlOrSpace c = true.
Proof. all_chars c. Qed.

(* ================================================================== *)
(** ** Facts about the URL parser *)

Lemma tidy_cons (c : ascii) (s : string) :
  isC0ControlOrSpace c = false -> tidy (String c s) = String c (tidy s).
Proof.
  intros H. unfold tidy. simpl. rewrite H. simpl.
  destruct (isTabOrNewline c) eqn:E; [|reflexivity].
  apply tab_is_space in E. congruence.
Qed.

Lemma preprocess_cons (c : ascii) (s : string) :
  isC0ControlOrSpace c = false -> preprocess (String c s) = String c (tidy s).
Proof.
  intros H. unfold preprocess. simpl stripLeading. rewrite H.
  now apply tidy_cons.
Qed.

Lemma preprocess_http (s : string) : preprocess ("http://" ++ s) = "http://" ++ tidy s.
Proof.
  simpl. rewrite preprocess_cons by reflexivity.
  now rewrite !tidy_cons by reflexivity.
Qed.

Lemma parseAuthority_http (s : string) :
  parseAuthority ("http://" ++ s) = authorityFrom Http (String "/" (String "/" (tidy s))).
Proof. unfold parseAuthority. now rewrite preprocess_http. Qed.

Lemma authorityFrom_scheme (sch : Scheme) (s : string) (a : Authority) :
  authorityFrom sch s = Some a -> authScheme a = sch.
Proof.
  unfold authorityFrom. intros H.
  destruct (authorityState _ _ _ _); [|discriminate].
  destruct (hostState _ _ _) as [[hbuf [r|r]]|]; [| |discriminate].
  - destruct (portState _ _) as [[pbuf rest]|]; [|discriminate].
    now inversion H.
  - now inversion H.
Qed.

Lemma startsWithNoCase_cons (p : ascii) (pattern s : string) :
  startsWithNoCase (String p pattern) s = true ->
  exists c s', s = String c s' /\ toLower c = p /\ startsWithNoCase pattern s' = true.
Proof.
  destruct s as [|c s']; simpl; [discriminate|]. intros H.
  apply andb_true_iff in H as [H1 H2]. apply Ascii.eqb_eq in H1.
  now exists c, s'.
Qed.

(** A string that starts with [http://] or [https://] in any case, taken
    apart. *)
Lemma hasHttpPrefix_cases (s : string) :
  hasHttpPrefix s = true ->
  exists c1 c2 c3 c4 rest,
    toLower c1 = "h"%char /\ toLower c2 = "t"%char /\
    toLower c3 = "t"%char /\ toLower c4 = "p"%char /\
    (s = String c1 (String c2 (String c3 (String c4 ("://" ++ rest)))) \/
     exists c5, toLower c5 = "s"%char /\
       s = String c1 (String c2 (String c3 (String c4 (String c5 ("://" ++ rest)))))).
Proof.
  unfold hasHttpPrefix. intros H. apply orb_true_iff in H as [H|H].
  - apply startsWithNoCase_cons in H as (c1 & s1 & -> & L1 & H).
    apply startsWithNoCase_cons in H as (c2 & s2 & -> & L2 & H).
    apply startsWithNoCase_cons in H as (c3 & s3 & -> & L3 & H).
    apply startsWithNoCase_cons in H as (c4 & s4 & -> & L4 & H).
    apply startsWithNoCase_cons in H as (c5 & s5 & -> & L5 & H).
    apply startsWithNoCase_cons in H as (c6 & s6 & -> & L6 & H).
    apply startsWithNoCase_cons in H as (c7 & s7 & -> & L7 & _).
    apply toLower_other in L5, L6, L7; try reflexivity. subst c5 c6 c7.
    exists c1, c2, c3, c4, s7. repeat split; try assumption. now left.
  - apply startsWithNoCase_cons in H as (c1 & s1 & -> & L1 & H).
    apply startsWithNoCase_cons in H as (c2 & s2 & -> & L2 & H).
    apply startsWithNoCase_cons in H as (c3 & s3 & -> & L3 & H).
    apply startsWithNoCase_cons in H as (c4 & s4 & -> & L4 & H).
    apply startsWithNoCase_cons in H as (c5 & s5 & -> & L5 & H).
    apply startsWithNoCase_cons in H as (c6 & s6 & -> & L6 & H).
    apply startsWithNoCase_cons in H as (c7 & s7 & -> & L7 & H).
    apply startsWithNoCase_cons in H as (c8 & s8 & -> & L8 & _).
    apply toLower_other in L6, L7, L8; try reflexivity. subst c6 c7 c8.
    exists c1, c2, c3, c4, s8. repeat split; try assumption.
    right. now exists c5.
Qed.

(** [parseUrl] hands the URL parser nothing but texts with an [http] or
    [https] scheme. *)
Lemma parseUrl_passes_http_scheme (inputUrl : string) :
  hasHttpPrefix (urlText inputUrl) = true.
Proof.
  unfold urlText. destruct (hasHttpPrefix inputUrl) eqn:E; [exact E|].
  reflexivity.
Qed.

Lemma lower_letter_facts (c d : ascii) :
  toLower c = d -> isLower d = true ->
  isAlpha c = true /\ isC0ControlOrSpace c = false /\
  isSchemeChar c = true /\ Ascii.eqb c ":" = false.
Proof.
  intros H Hd. rewrite <- H in Hd. apply toLower_letter in Hd.
  pose proof (isAlpha_facts c Hd). tauto.
Qed.

(** The scheme found in an input that starts with [http://] or
    [https://]: the authority is parsed for the lowercase of what stands
    before the colon. *)
Lemma parseAuthority_prefixed (s : string) :
  hasHttpPrefix s = true ->
  exists sch rest,
    schemeName sch = lowercase (beforeColon s) /\
    parseAuthority s = authorityFrom sch (String "/" (String "/" (tidy rest))).
Proof.
  intros H.
  destruct (hasHttpPrefix_cases s H) as (c1 & c2 & c3 & c4 & rest & L1 & L2 & L3 & L4 & Hs).
  destruct (lower_letter_facts c1 _ L1 eq_refl) as (A1 & S1 & K1 & N1).
  destruct (lower_letter_facts c2 _ L2 eq_refl) as (A2 & S2 & K2 & N2).
  destruct (lower_letter_facts c3 _ L3 eq_refl) as (A3 & S3 & K3 & N3).
  destruct (lower_letter_facts c4 _ L4 eq_refl) as (A4 & S4 & K4 & N4).
  destruct Hs as [-> | (c5 & L5 & ->)].
  - exists Http, rest. split.
    + simpl. rewrite N1, N2, N3, N4. simpl. now rewrite L1, L2, L3, L4.
    + unfold parseAuthority. rewrite preprocess_cons by assumption.
      rewrite !tidy_cons by (assumption || reflexivity).
      unfold schemeStartState. rewrite A1. simpl schemeState.
      rewrite K2, K3, K4, L1, L2, L3, L4. reflexivity.
  - destruct (lower_letter_facts c5 _ L5 eq_refl) as (A5 & S5 & K5 & N5).
    exists Https, rest. split.
    + simpl. rewrite N1, N2, N3, N4, N5. simpl. now rewrite L1, L2, L3, L4, L5.
    + unfold parseAuthority. rewrite preprocess_cons by assumption.
      rewrite !tidy_cons by (assumption || reflexivity).
      unfold schemeStartState. rewrite A1. simpl schemeState.
      rewrite K2, K3, K4, K5, L1, L2, L3, L4, L5. reflexivity.
Qed.

Lemma isPlainHostChar_facts (c : ascii) :
  isPlainHostChar c = true ->
  isC0ControlOrSpace c = false /\ isAuthorityEnd c = false /\
  isSlash c = false /\ Ascii.eqb c ":" = false /\ Ascii.eqb c "@" = false.
Proof. all_chars c. Qed.

Lemma tidy_plain (s : string) : plainHostText s = true -> tidy s = s.
Proof.
  induction s as [|c s IH]; [reflexivity|]. simpl. intros H.
  apply andb_true_iff in H as [Hc Hs].
  apply isPlainHostChar_facts in Hc as (Hc & _).
  rewrite tidy_cons by exact Hc. now rewrite IH.
Qed.

Lemma tidy_spaces (s : string) : allChars isC0ControlOrSpace s = true -> tidy s = "".
Proof.
  intros H. unfold tidy.
  assert (E : stripTrailing s = "").
  { induction s as [|c s IH]; [reflexivity|]. simpl in *.
    apply andb_true_iff in H as [Hc Hs]. now rewrite Hc, IH. }
  now rewrite E.
Qed.

Lemma authorityState_plain (s buffer hostStart : string) :
  plainHostText s = true ->
  authorityState false buffer hostStart s = Some hostStart.
Proof.
  revert buffer. induction s as [|c s IH]; intros buffer H; [reflexivity|].
  simpl in H. apply andb_true_iff in H as [Hc Hs].
  apply isPlainHostChar_facts in Hc as (_ & He & _ & _ & Ha).
  simpl. rewrite Ha, He. now apply IH.
Qed.

Lemma hostState_plain (s buffer : string) (insideBrackets : bool) :
  plainHostText s = true -> buffer ++ s <> "" ->
  hostState insideBrackets buffer s = Some (buffer ++ s, ToPathStart "").
Proof.
  revert buffer insideBrackets.
  induction s as [|c s IH]; intros buffer ins H Hne.
  - rewrite append_empty_r in *. simpl.
    apply isEmpty_false in Hne. now rewrite Hne.
  - simpl in H. apply andb_true_iff in H as [Hc Hs].
    apply isPlainHostChar_facts in Hc as (_ & He & _ & Hcolon & _).
    simpl. rewrite Hcolon, He. simpl.
    rewrite IH; [now rewrite snoc_append | exact Hs |].
    rewrite snoc_append. destruct buffer; discriminate.
Qed.

Lemma parseAuthority_plain (s : string) :
  s <> "" -> plainHostText s = true ->
  parseAuthority ("http://" ++ s) = Some (mkAuthority Http s None "").
Proof.
  intros Hne H. rewrite parseAuthority_http, tidy_plain by exact H.
  unfold authorityFrom. simpl ignoreSlashes.
  destruct s as [|c s]; [congruence|].
  pose proof H as H'. simpl in H'. apply andb_true_iff in H' as [Hc _].
  apply isPlainHostChar_facts in Hc as (_ & _ & Hslash & _).
  simpl ignoreSlashes. rewrite Hslash.
  rewrite authorityState_plain by exact H.
  now rewrite hostState_plain by (exact H || discriminate).
Qed.

Lemma hasHttpPrefix_plain (s : string) :
  plainHostText s = true -> hasHttpPrefix s = false.
Proof.
  intros H. destruct (hasHttpPrefix s) eqn:E; [|reflexivity].
  apply hasHttpPrefix_cases in E
    as (c1 & c2 & c3 & c4 & rest & _ & _ & _ & _ & [-> | (c5 & _ & ->)]);
    unfold plainHostText in H; simpl in H;
    repeat rewrite andb_false_r in H; discriminate.
Qed.

Lemma hasHttpPrefix_spaces (s : string) :
  allChars isC0ControlOrSpace s = true -> hasHttpPrefix s = false.
Proof.
  intros H. destruct (hasHttpPrefix s) eqn:E; [|reflexivity].
  apply hasHttpPrefix_cases in E
    as (c1 & c2 & c3 & c4 & rest & L1 & _ & _ & _ & Hs).
  assert (Hc : isC0ControlOrSpace c1 = true).
  { destruct Hs as [-> | (c5 & _ & ->)]; simpl in H;
      now apply andb_true_iff in H as [H _]. }
  apply space_not_letter in Hc. rewrite L1 in Hc. discriminate.
Qed.

(** The port state only collects digits. *)
Lemma portState_digits (s buffer pbuf rest : string) :
  portState buffer s = Some (pbuf, rest) ->
  allChars isDigit buffer = true -> allChars isDigit pbuf = true.
Proof.
  revert buffer. induction s as [|c s IH]; intros buffer H Hb; simpl in H.
  - now inversion H; subst.
  - destruct (isDigit c) eqn:Ed.
    + apply (IH _ H). now rewrite allChars_snoc, Hb, Ed.
    + destruct (isAuthorityEnd c); [|discriminate]. now inversion H; subst.
Qed.

Lemma authorityFrom_port_digits (sch : Scheme) (s : string) (a : Authority)
      (digits : string) :
  authorityFrom sch s = Some a -> portBuffer a = Some digits ->
  allChars isDigit digits = true.
Proof.
  unfold authorityFrom. intros H Hp.
  destruct (authorityState _ _ _ _); [|discriminate].
  destruct (hostState _ _ _) as [[hbuf [r|r]]|]; [| |discriminate].
  - destruct (portState _ _) as [[pbuf rest]|] eqn:E; [|discriminate].
    inversion H; subst. simpl in Hp. inversion Hp; subst.
    now apply (portState_digits _ _ _ _ E).
  - inversion H; subst. discriminate.
Qed.

Lemma parseAuthority_port_digits (input : string) (a : Authority) (digits : string) :
  parseAuthority input = Some a -> portBuffer a = Some digits ->
  allChars isDigit digits = true.
Proof.
  unfold parseAuthority. intros H.
  destruct (schemeStartState _) as [[nm rest]|]; [|discriminate].
  destruct (schemeOfName nm); [|discriminate].
  now apply authorityFrom_port_digits with (1 := H).
Qed.

Lemma authorityFrom_plain (sch : Scheme) (s : string) :
  s <> "" -> plainHostText s = true ->
  authorityFrom sch (String "/" (String "/" (tidy s)))
  = Some (mkAuthority sch s None "").
Proof.
  intros Hne H. rewrite tidy_plain by exact H.
  unfold authorityFrom. simpl ignoreSlashes.
  destruct s as [|c s]; [congruence|].
  pose proof H as H'. simpl in H'. apply andb_true_iff in H' as [Hc _].
  apply isPlainHostChar_facts in Hc as (_ & _ & Hslash & _).
  simpl ignoreSlashes. rewrite Hslash.
  rewrite authorityState_plain by exact H.
  now rewrite hostState_plain by (exact H || discriminate).
Qed.

(** An input made of [http://] in any case and what follows it. *)
Lemma parseAuthority_explicit_http (c1 c2 c3 c4 : ascii) (rest : string) :
  toLower c1 = "h"%char -> toLower c2 = "t"%char ->
  toLower c3 = "t"%char -> toLower c4 = "p"%char ->
  let input := String c1 (String c2 (String c3 (String c4 ("://" ++ rest)))) in
  hasHttpPrefix input = true /\
  lowercase (beforeColon input) = "http" /\
  parseAuthority input = authorityFrom Http (String "/" (String "/" (tidy rest))).
Proof.
  intros L1 L2 L3 L4. cbv zeta.
  destruct (lower_letter_facts c1 _ L1 eq_refl) as (A1 & S1 & K1 & N1).
  destruct (lower_letter_facts c2 _ L2 eq_refl) as (A2 & S2 & K2 & N2).
  destruct (lower_letter_facts c3 _ L3 eq_refl) as (A3 & S3 & K3 & N3).
  destruct (lower_letter_facts c4 _ L4 eq_refl) as (A4 & S4 & K4 & N4).
  split; [|split].
  - unfold hasHttpPrefix. simpl. rewrite L1, L2, L3, L4. reflexivity.
  - simpl. rewrite N1, N2, N3, N4. simpl. now rewrite L1, L2, L3, L4.
  - unfold parseAuthority. rewrite preprocess_cons by assumption.
    rewrite !tidy_cons by (assumption || reflexivity).
    unfold schemeStartState. rewrite A1. simpl schemeState.
    rewrite K2, K3, K4, L1, L2, L3, L4. reflexivity.
Qed.

(** An input made of [https://] in any case and what follows it. *)
Lemma parseAuthority_explicit_https (c1 c2 c3 c4 c5 : ascii) (rest : string) :
  toLower c1 = "h"%char -> toLower c2 = "t"%char ->
  toLower c3 = "t"%char -> toLower c4 = "p"%char -> toLower c5 = "s"%char ->
  let input :=
    String c1 (String c2 (String c3 (String c4 (String c5 ("://" ++ rest))))) in
  hasHttpPrefix input = true /\
  lowercase (beforeColon input) = "https" /\
  parseAuthority input = authorityFrom Https (String "/" (String "/" (tidy rest))).
Proof.
  intros L1 L2 L3 L4 L5. cbv zeta.
  destruct (lower_letter_facts c1 _ L1 eq_refl) as (A1 & S1 & K1 & N1).
  destruct (lower_letter_facts c2 _ L2 eq_refl) as (A2 & S2 & K2 & N2).
  destruct (lower_letter_facts c3 _ L3 eq_refl) as (A3 & S3 & K3 & N3).
  destruct (lower_letter_facts c4 _ L4 eq_refl) as (A4 & S4 & K4 & N4).
  destruct (lower_letter_facts c5 _ L5 eq_refl) as (A5 & S5 & K5 & N5).
  split; [|split].
  - unfold hasHttpPrefix. simpl. rewrite L1, L2, L3, L4, L5.
    apply orb_true_r.
  - simpl. rewrite N1, N2, N3, N4, N5. simpl. now rewrite L1, L2, L3, L4, L5.
  - unfold parseAuthority. rewrite preprocess_cons by assumption.
    rewrite !tidy_cons by (assumption || reflexivity).
    unfold schemeStartState. rewrite A1. simpl schemeState.
    rewrite K2, K3, K4, K5, L1, L2, L3, L4, L5. reflexivity.
Qed.

(** A prefix that reads [http://] or [https://] in lowercase, before
    plain host text. *)
Lemma parseAuthority_explicit_plain (prefix hostText : string) :
  lowercase prefix = "http://" \/ lowercase prefix = "https://" ->
  hostText <> "" -> plainHostText hostText = true ->
  exists sch,
    hasHttpPrefix (prefix ++ hostText) = true /\
    lowercase (beforeColon (prefix ++ hostText)) = schemeName sch /\
    lowercase (beforeColon prefix) = schemeName sch /\
    parseAuthority (prefix ++ hostText) = Some (mkAuthority sch hostText None "").
Proof.
  intros [H | H] Hne Hplain.
  - destruct prefix as [|c1 [|c2 [|c3 [|c4 [|c5 [|c6 [|c7 [|c8 rest]]]]]]]];
      simpl in H; try discriminate.
    injection H as L1 L2 L3 L4 L5 L6 L7.
    apply toLower_other in L5, L6, L7; try reflexivity. subst c5 c6 c7.
    destruct (parseAuthority_explicit_http c1 c2 c3 c4 hostText L1 L2 L3 L4)
      as (Hp & Hb & Ha).
    destruct (parseAuthority_explicit_http c1 c2 c3 c4 "" L1 L2 L3 L4)
      as (_ & Hb' & _).
    exists Http. split; [exact Hp|]. split; [exact Hb|]. split; [exact Hb'|].
    etransitivity; [exact Ha | now apply authorityFrom_plain].
  - destruct prefix as [|c1 [|c2 [|c3 [|c4 [|c5 [|c6 [|c7 [|c8 [|c9 rest]]]]]]]]];
      simpl in H; try discriminate.
    injection H as L1 L2 L3 L4 L5 L6 L7 L8.
    apply toLower_other in L6, L7, L8; try reflexivity. subst c6 c7 c8.
    destruct (parseAuthority_explicit_https c1 c2 c3 c4 c5 hostText L1 L2 L3 L4 L5)
      as (Hp & Hb & Ha).
    destruct (parseAuthority_explicit_https c1 c2 c3 c4 c5 "" L1 L2 L3 L4 L5)
      as (_ & Hb' & _).
    exists Https. split; [exact Hp|]. split; [exact Hb|]. split; [exact Hb'|].
    etransitivity; [exact Ha | now apply authorityFrom_plain].
Qed.

Section UrlProperties.

Variable hostParser : string -> option string.
Variable pathParser : string -> string.

Local Abbreviation newURL := (URL_new hostParser pathParser).
Local Abbreviation parse := (parseUrl hostParser pathParser).

Lemma URL_new_inv (input : string) (u : URL) :
  newURL input = Some u ->
  exists a h p,
    parseAuthority input = Some a /\
    hostParser (hostBuffer a) = Some h /\
    portOfBuffer (authScheme a)
      (match portBuffer a with Some b => b | None => "" end) = Some p /\
    u = mkURL (authScheme a) h p (pathParser (afterAuthority a)).
Proof.
  unfold URL_new. intros H.
  destruct (parseAuthority input) as [a|]; [|discriminate].
  destruct (hostParser (hostBuffer a)) as [h|] eqn:Eh; [|discriminate].
  destruct (portOfBuffer _ _) as [p|] eqn:Ep; [|discriminate].
  exists a, h, p. inversion H. auto.
Qed.

(** A port the parser has stored is never the scheme's default. *)
Lemma portOfBuffer_not_default (sch : Scheme) (buffer : string) (n : N) :
  portOfBuffer sch buffer = Some (Some n) -> n <> defaultPort sch.
Proof.
  unfold portOfBuffer. destruct (isEmpty buffer); [discriminate|].
  destruct (65535 <? _)%N; [discriminate|].
  destruct (N.eqb_spec (digitsValue buffer) (defaultPort sch)); [discriminate|].
  congruence.
Qed.

(** The port setter with the scheme's default port leaves a URL
    without a port as it is. *)
Lemma setPort_default (u : URL) :
  portNumber u = None ->
  setPort u (decimal (defaultPort (scheme u))) = u.
Proof.
  destruct u as [sch h p pa]. simpl. intros ->.
  unfold setPort. simpl. destruct (isEmpty h); [reflexivity|].
  destruct sch; reflexivity.
Qed.

(** Lines 192-198 of [parseUrl] never change the URL: with a port the
    branch is not taken, and without one the setter is given the
    default port, which the URL keeps as no port. *)
Lemma parseUrl_is_URL_new (inputUrl : string) :
  parse inputUrl = newURL (urlText inputUrl).
Proof.
  unfold parseUrl, urlText.
  destruct (negb (hasHttpPrefix inputUrl));
    (destruct (URL_new _ _ _) as [[sch h [n|] pa]|]; [| |reflexivity];
     [unfold port; simpl; now rewrite decimal_not_empty|];
     f_equal; destruct sch;
     [exact (setPort_default (mkURL Http h None pa) eq_refl)
     |exact (setPort_default (mkURL Https h None pa) eq_refl)]).
Qed.

Lemma parseUrl_inv (inputUrl : string) (url : URL) :
  parse inputUrl = Some url ->
  exists a h p,
    parseAuthority (urlText inputUrl) = Some a /\
    hostParser (hostBuffer a) = Some h /\
    portOfBuffer (authScheme a)
      (match portBuffer a with Some b => b | None => "" end) = Some p /\
    url = mkURL (authScheme a) h p (pathParser (afterAuthority a)).
Proof. rewrite parseUrl_is_URL_new. apply URL_new_inv. Qed.

Lemma parseUrl_scheme_of_result (inputUrl : string) (url : URL) :
  parse inputUrl = Some url ->
  (hasHttpPrefix inputUrl = false -> protocol url = "http:") /\
  (hasHttpPrefix inputUrl = true ->
   protocol url = lowercase (beforeColon inputUrl) ++ ":" /\
   (lowercase (beforeColon inputUrl) = "http" \/
    lowercase (beforeColon inputUrl) = "https")).
Proof.
  intros H.
  apply parseUrl_inv in H as (a & h & p & Ha & _ & _ & ->).
  unfold protocol, urlText in *. simpl scheme. split; intros E; rewrite E in Ha; simpl in Ha.
  - change (String "h" (String "t" (String "t" (String "p"
             (String ":" (String "/" (String "/" inputUrl)))))))
      with ("http://" ++ inputUrl) in Ha.
    rewrite parseAuthority_http in Ha.
    apply authorityFrom_scheme in Ha. now rewrite Ha.
  - destruct (parseAuthority_prefixed inputUrl E) as (sch & rest & Hn & Hp).
    rewrite Hp in Ha. apply authorityFrom_scheme in Ha. rewrite Ha, <- Hn.
    split; [reflexivity|]. destruct sch; auto.
Qed.

(** C6. Whenever [parseUrl] returns a URL: for an input that does not
    start with [http://] or [https://] (in any case) the protocol is
    [http:]; for an input that does, the protocol is the lowercase of
    the scheme the input carries, which is [http] or [https].  And it
    does return one: for plain host text that the host parser accepts,
    the bare text is an input without such a start and gives an [http:]
    URL of that host, and the text after [http://] or [https://], in
    any case, gives a URL of that host with that scheme in lowercase. *)
Theorem parseUrl_scheme :
  (forall inputUrl url,
     parse inputUrl = Some url ->
     (hasHttpPrefix inputUrl = false -> protocol url = "http:") /\
     (hasHttpPrefix inputUrl = true ->
      protocol url = lowercase (beforeColon inputUrl) ++ ":" /\
      (lowercase (beforeColon inputUrl) = "http" \/
       lowercase (beforeColon inputUrl) = "https"))) /\
  (forall hostText h,
     hostText <> "" -> plainHostText hostText = true ->
     hostParser hostText = Some h ->
     hasHttpPrefix hostText = false /\
     exists url, parse hostText = Some url /\
                 protocol url = "http:" /\ hostname url = h) /\
  (forall prefix hostText h,
     lowercase prefix = "http://" \/ lowercase prefix = "https://" ->
     hostText <> "" -> plainHostText hostText = true ->
     hostParser hostText = Some h ->
     hasHttpPrefix (prefix ++ hostText) = true /\
     exists url, parse (prefix ++ hostText) = Some url /\
                 protocol url = lowercase (beforeColon prefix) ++ ":" /\
                 hostname url = h).
Proof.
  split; [exact parseUrl_scheme_of_result|]. split.
  - intros hostText h Hne Hplain Hh.
    split; [now apply hasHttpPrefix_plain|].
    exists (mkURL Http h None (pathParser "")).
    split; [|split; reflexivity].
    rewrite parseUrl_is_URL_new. unfold urlText.
    rewrite hasHttpPrefix_plain by exact Hplain. simpl negb. cbv iota.
    unfold URL_new. rewrite parseAuthority_plain by assumption. simpl.
    now rewrite Hh.
  - intros prefix hostText h Hp Hne Hplain Hh.
    destruct (parseAuthority_explicit_plain prefix hostText Hp Hne Hplain)
      as (sch & Hpre & _ & Hb & Ha).
    split; [exact Hpre|].
    exists (mkURL sch h None (pathParser "")).
    split; [|split; [|reflexivity]].
    + rewrite parseUrl_is_URL_new. unfold urlText. rewrite Hpre. simpl negb.
      cbv iota. unfold URL_new. rewrite Ha. simpl. now rewrite Hh.
    + unfold protocol. simpl. now rewrite Hb.
Qed.

(** C7, as amended. When the text handed to the URL parser carries an
    explicit port (a non-empty run of digits after the host's colon),
    [parseUrl] returns a URL and the port's number is not the default
    port of the URL's scheme, then [url.port] is that number in decimal;
    it is the port of the input verbatim when the digits have no leading
    zero. *)
Theorem parseUrl_explicit_port (inputUrl : string) (a : Authority)
        (digits : string) (url : URL) :
  parseAuthority (urlText inputUrl) = Some a ->
  portBuffer a = Some digits ->
  digits <> "" ->
  parse inputUrl = Some url ->
  digitsValue digits <> defaultPort (scheme url) ->
  port url = decimal (digitsValue digits) /\
  (noLeadingZero digits = true -> port url = digits).
Proof.
  intros Ha Hb Hne H Hd.
  pose proof (parseAuthority_port_digits _ _ _ Ha Hb) as Hdigits.
  apply parseUrl_inv in H as (a' & h & p & Ha' & _ & Hp & ->).
  rewrite Ha in Ha'. inversion Ha'; subst a'. clear Ha'.
  rewrite Hb in Hp. simpl in Hd. unfold portOfBuffer in Hp.
  apply isEmpty_false in Hne. rewrite Hne in Hp.
  destruct (65535 <? digitsValue digits)%N; [discriminate|].
  destruct (N.eqb_spec (digitsValue digits) (defaultPort (authScheme a)));
    [contradiction|].
  inversion Hp; subst p. unfold port. simpl. split; [reflexivity|].
  intros Hz. apply decimal_digitsValue. unfold canonicalNumeral.
  rewrite Hdigits. exact Hz.
Qed.

(** C4, as amended. [parseUrl] throws for the empty string and for every
    input made only of C0 control characters and spaces.  For a
    non-empty input of plain host text (no control character or space,
    none of [/ \ ? # : @]) it throws exactly when the URL parser's host
    parser rejects the input as a host, and otherwise returns the http
    URL of that host. *)
Theorem parseUrl_failure :
  (forall s, allChars isC0ControlOrSpace s = true -> parse s = None) /\
  (forall s, s <> "" -> plainHostText s = true ->
     parse s = match hostParser s with
               | Some h => Some (mkURL Http h None (pathParser ""))
               | None => None
               end).
Proof.
  split.
  - intros s H. rewrite parseUrl_is_URL_new. unfold urlText.
    rewrite hasHttpPrefix_spaces by exact H. simpl negb. cbv iota.
    unfold URL_new. rewrite parseAuthority_http, tidy_spaces by exact H.
    reflexivity.
  - intros s Hne H. rewrite parseUrl_is_URL_new. unfold urlText.
    rewrite hasHttpPrefix_plain by exact H. simpl negb. cbv iota.
    unfold URL_new. rewrite parseAuthority_plain by assumption. simpl.
    destruct (hostParser s); reflexivity.
Qed.

End UrlProperties.

(* ================================================================== *)
(** ** URL normalisation: examples and counterexamples *)

Example parseUrl_bare_address :
  parseUrl exampleHostParser examplePathParser "192.168.1.1"
  = Some (mkURL Http "192.168.1.1" None "/").
Proof. reflexivity. Qed.

(** The port of a URL normalised from an input without a port reads as
    the empty string: the assignments of lines 194 and 196 store the
    scheme's default port, which a URL keeps as no port. *)
Example parseUrl_default_port_reads_empty :
  (forall u, parseUrl exampleHostParser examplePathParser "192.168.1.1" = Some u ->
             port u = "") /\
  (forall u, parseUrl exampleHostParser examplePathParser "https://router.local" = Some u ->
             port u = "").
Proof. split; intros u H; vm_compute in H; inversion H; reflexivity. Qed.

Lemma parseUrl_scheme_witness :
  (exists url,
      parseUrl exampleHostParser examplePathParser "192.168.1.1" = Some url /\
      protocol url = "http:" /\ hostname url = "192.168.1.1") /\
  (exists url,
      parseUrl exampleHostParser examplePathParser "HTTPS://Router.local"
      = Some url /\
      protocol url = "https:" /\ hostname url = "router.local") /\
  protocol (mkURL Https "router.local" None "/") = "https:".
Proof.
  destruct (parseUrl_scheme exampleHostParser examplePathParser)
    as (Hresult & Hbare & Hexplicit).
  split; [|split].
  - destruct (Hbare "192.168.1.1" "192.168.1.1") as (_ & Hurl);
      [discriminate | reflexivity | reflexivity | exact Hurl].
  - destruct (Hexplicit "HTTPS://" "Router.local" "router.local") as (_ & Hurl);
      [right; reflexivity | discriminate | reflexivity | reflexivity | exact Hurl].
  - destruct (Hresult "HTTPS://Router.local"
                (mkURL Https "router.local" None "/") eq_refl) as (_ & Hscheme).
    destruct (Hscheme eq_refl) as (Hprotocol & _). exact Hprotocol.
Defined.

Lemma parseUrl_explicit_port_witness :
  port (mkURL Http "192.168.1.1" (Some 8080%N) "/") = "8080".
Proof.
  apply (parseUrl_explicit_port exampleHostParser examplePathParser
           "192.168.1.1:8080"
           (mkAuthority Http "192.168.1.1" (Some "8080") "")
           "8080" (mkURL Http "192.168.1.1" (Some 8080%N) "/"));
    try reflexivity; vm_compute; discriminate.
Defined.

Lemma parseUrl_failure_witness :
  parseUrl exampleHostParser examplePathParser "  " = None /\
  parseUrl exampleHostParser examplePathParser "router.local"
  = Some (mkURL Http "router.local" None "/").
Proof.
  destruct (parseUrl_failure exampleHostParser examplePathParser) as [Hfail Hok].
  split.
  - apply Hfail. reflexivity.
  - rewrite Hok; [reflexivity | discriminate | reflexivity].
Defined.

(** C4 fails as stated: ["/"] is not empty and not white space, and
    [parseUrl] throws for it whatever the host parser accepts (the URL
    parser finds an empty host). *)
Lemma parseUrl_rejects_slash :
  "/" <> "" /\ allChars isC0ControlOrSpace "/" = false /\
  forall hostParser pathParser, parseUrl hostParser pathParser "/" = None.
Proof.
  split; [discriminate|]. split; [reflexivity|]. intros hostParser pathParser.
  reflexivity.
Qed.

(** C7 fails as stated: the explicit port [08080] of an accepted input
    is not preserved verbatim. *)
Lemma parseUrl_port_not_verbatim :
  exists a u,
    parseAuthority (urlText "192.168.1.1:08080") = Some a /\
    portBuffer a = Some "08080" /\
    parseUrl exampleHostParser examplePathParser "192.168.1.1:08080" = Some u /\
    port u = "8080" /\ port u <> "08080".
Proof.
  exists (mkAuthority Http "192.168.1.1" (Some "08080") ""),
         (mkURL Http "192.168.1.1" (Some 8080%N) "/").
  repeat split; try reflexivity. vm_compute. discriminate.
Qed.

(* ================================================================== *)
(** ** The probe and its two callers *)

Section ProbeProperties.

Variable hostParser : string -> option string.
Variable pathParser : string -> string.

Local Abbreviation parse := (parseUrl hostParser pathParser).
Local Abbreviation probe := (getRouterStatus hostParser pathParser).
Local Abbreviation handler := (onGet hostParser pathParser).
Local Abbreviation fire := (tick hostParser pathParser).
Local Abbreviation run := (runTicks hostParser pathParser).

Lemma getRouterStatus_parsed (net : Network) (inputUrl : string) (url : URL) :
  parse inputUrl = Some url ->
  probe net inputUrl =
  ([requestFor url],
   match net (requestFor url) with
   | Response statusCode =>
       if truthy statusCode && geNum statusCode 400 && ltNum statusCode 600
       then Resolved false else Resolved true
   | ErrorEvent message => Rejected (TransportError message)
   end).
Proof. intros H. unfold getRouterStatus. now rewrite H. Qed.

Lemma getRouterStatus_requests (net : Network) (inputUrl : string) :
  (List.length (fst (probe net inputUrl)) <= 1)%nat.
Proof.
  unfold getRouterStatus. destruct (parse inputUrl); simpl; lia.
Qed.

(** C3. Once the URL is parsed and the request made: a response with a
    status code in [100,399] resolves the probe with [true] (Connected),
    one with a status code in [400,599] resolves it with [false]
    (NotConnected), and an ['error'] event, with no response, rejects
    it with that error. *)
Theorem getRouterStatus_classification (net : Network) (inputUrl : string)
        (url : URL) :
  parse inputUrl = Some url ->
  (forall code, net (requestFor url) = Response (Some code) ->
                (100 <= code <= 399)%Z ->
                probe net inputUrl = ([requestFor url], Resolved true)) /\
  (forall code, net (requestFor url) = Response (Some code) ->
                (400 <= code <= 599)%Z ->
                probe net inputUrl = ([requestFor url], Resolved false)) /\
  (forall message, net (requestFor url) = ErrorEvent message ->
                   probe net inputUrl
                   = ([requestFor url], Rejected (TransportError message))).
Proof.
  intros H. rewrite (getRouterStatus_parsed net _ _ H).
  repeat split; intros x Hnet; rewrite Hnet; [| |reflexivity]; intros Hc; simpl.
  - assert (E : (400 <=? x)%Z = false) by (apply Z.leb_gt; lia).
    now rewrite E, andb_false_r.
  - assert (E0 : (x =? 0)%Z = false) by (apply Z.eqb_neq; lia).
    assert (E1 : (400 <=? x)%Z = true) by (apply Z.leb_le; lia).
    assert (E2 : (x <? 600)%Z = true) by (apply Z.ltb_lt; lia).
    now rewrite E0, E1, E2.
Qed.

Lemma statusCode_in_400_599 (statusCode : option Z) :
  truthy statusCode && geNum statusCode 400 && ltNum statusCode 600 = true <->
  exists code, statusCode = Some code /\ (400 <= code <= 599)%Z.
Proof.
  destruct statusCode as [code|]; simpl.
  - rewrite !andb_true_iff, negb_true_iff, Z.eqb_neq, Z.leb_le, Z.ltb_lt.
    split.
    + intros [[H0 H1] H2]. exists code. split; [reflexivity | lia].
    + intros (c & Hc & Hr). inversion Hc; subst c. lia.
  - split; [discriminate | intros (c & Hc & _); discriminate].
Qed.

(** C10. For a response, the probe resolves with [false] exactly when
    the status code is present and in [400,599]; with a status code that
    is absent or outside that range, below 100 and from 600 on included,
    it resolves with [true]. *)
Theorem getRouterStatus_not_connected_iff (net : Network) (inputUrl : string)
        (url : URL) (statusCode : option Z) :
  parse inputUrl = Some url ->
  net (requestFor url) = Response statusCode ->
  (snd (probe net inputUrl) = Resolved false <->
   exists code, statusCode = Some code /\ (400 <= code <= 599)%Z) /\
  ((statusCode = None \/
    exists code, statusCode = Some code /\ (code < 400 \/ 600 <= code)%Z) ->
   snd (probe net inputUrl) = Resolved true).
Proof.
  intros H Hnet. rewrite (getRouterStatus_parsed net _ _ H), Hnet. simpl.
  pose proof (statusCode_in_400_599 statusCode) as Hiff.
  destruct (truthy statusCode && geNum statusCode 400 && ltNum statusCode 600).
  - split; [split; [intros _; now apply Hiff | reflexivity]|].
    destruct Hiff as [Hiff _]. destruct (Hiff eq_refl) as (c & -> & Hr).
    intros [Hn | (c' & Hc & Hout)]; [discriminate|].
    inversion Hc; subst c'. lia.
  - split; [|reflexivity].
    split; [discriminate|]. intros Hc. apply Hiff in Hc. discriminate.
Qed.

(** C9. The [onGet] handler makes the requests of one probe, at most
    one request, the one for the router's URL when that URL parses; its
    promise always resolves, with CONNECTED or NOT_CONNECTED: CONNECTED
    when the probe resolves with [true], NOT_CONNECTED when it resolves
    with [false] and when it rejects, for whatever error.  The handler
    takes and returns no platform state: it neither reads nor changes
    the timers. *)
Theorem onGet_contains_errors (net : Network) (router : RouterConfig) :
  fst (handler net router) = fst (probe net (homepageUrl router)) /\
  (List.length (fst (handler net router)) <= 1)%nat /\
  (forall url, parse (homepageUrl router) = Some url ->
               fst (handler net router) = [requestFor url]) /\
  (snd (handler net router) = Resolved CONNECTED \/
   snd (handler net router) = Resolved NOT_CONNECTED) /\
  (snd (probe net (homepageUrl router)) = Resolved true ->
   snd (handler net router) = Resolved CONNECTED) /\
  (snd (probe net (homepageUrl router)) = Resolved false ->
   snd (handler net router) = Resolved NOT_CONNECTED) /\
  (forall error, snd (probe net (homepageUrl router)) = Rejected error ->
                 snd (handler net router) = Resolved NOT_CONNECTED).
Proof.
  pose proof (getRouterStatus_requests net (homepageUrl router)) as Hlen.
  assert (Hreq : forall url, parse (homepageUrl router) = Some url ->
                 fst (probe net (homepageUrl router)) = [requestFor url]).
  { intros url H. now rewrite (getRouterStatus_parsed net _ _ H). }
  unfold onGet.
  destruct (probe net (homepageUrl router)) as [requests [[|]|error]]; simpl in *;
    repeat split; auto; try discriminate.
Qed.

(** The promise of the interval callback always resolves, and a firing
    changes nothing but accessories on the heap. *)
Lemma tick_resolves (net : Network) (p : Platform) (t : Timer) :
  exists p' requests,
    fire net p t = (p', requests, Resolved tt) /\
    timers p' = timers p /\ accessories p' = accessories p /\
    calls p' = calls p.
Proof.
  unfold tick.
  destruct (probe net (homepageUrl (timerRouter t))) as [requests [status|error]];
    eexists; eexists; split; try reflexivity; auto.
Qed.

(** Whatever the probes meet, the event loop goes on and every timer is
    still there to fire again. *)
Lemma runTicks_keeps_timers (schedule : list (nat * Network)) (p : Platform) :
  exists p', run p schedule = Some p' /\ timers p' = timers p.
Proof.
  revert p. induction schedule as [|[i net] later IH]; intros p; simpl.
  - now exists p.
  - destruct (nth_error (timers p) i) as [t|]; [|apply IH].
    destruct (tick_resolves net p t) as (p1 & requests & E & Ht & _).
    rewrite E. destruct (IH p1) as (p' & Hrun & Ht').
    exists p'. split; [exact Hrun | congruence].
Qed.

(** C1, what the code does.  When the probe of a tick rejects, the
    callback catches the error: its promise resolves and the platform is
    left exactly as it was, so the status the accessory reports stays
    what it was before the tick (it is not set to NOT_CONNECTED).  No
    run of ticks, failing or not, ends the event loop or removes a
    timer. *)
Theorem tick_probe_error_keeps_status (net : Network) (p : Platform)
        (t : Timer) (error : Error) :
  snd (probe net (homepageUrl (timerRouter t))) = Rejected error ->
  fire net p t = (p, fst (probe net (homepageUrl (timerRouter t))), Resolved tt) /\
  forall schedule, exists p', run p schedule = Some p' /\ timers p' = timers p.
Proof.
  intros H. split; [|intros schedule; apply runTicks_keeps_timers].
  unfold tick.
  destruct (probe net (homepageUrl (timerRouter t))) as [requests outcome].
  simpl in H. now rewrite H.
Qed.

End ProbeProperties.

(* ================================================================== *)
(** ** The polling period *)

Lemma isDigit_facts (c : ascii) :
  isDigit c = true ->
  isWhiteSpace c = false /\ Ascii.eqb c "+" = false /\ Ascii.eqb c "-" = false.
Proof. all_chars c. Qed.

Lemma parseInt10_decimal (n : N) : parseInt10 (decimal n) = Some (Z.of_N n).
Proof.
  destruct (decimal_spec n) as (Hall & Hne & Hv).
  unfold parseInt10. destruct (decimal n) as [|c rest] eqn:E; [congruence|].
  pose proof Hall as Hc. simpl in Hc. apply andb_true_iff in Hc as [Hc _].
  destruct (isDigit_facts c Hc) as (Hw & Hplus & Hminus).
  cbn [trimStart]. rewrite Hw. cbv zeta. rewrite Hplus, Hminus. simpl orb. cbv iota.
  rewrite takeDigits_all by exact Hall. cbn [isEmpty]. cbv iota.
  rewrite Hv. f_equal. lia.
Qed.

(** [parseInt] reads back the decimal form of every integer. *)
Lemma parseInt10_decimalZ (z : Z) : parseInt10 (decimalZ z) = Some z.
Proof.
  unfold decimalZ. destruct (Z.ltb_spec z 0) as [Hneg | Hpos].
  - pose proof (parseInt10_decimal (Z.to_N (- z))) as H.
    destruct (decimal_spec (Z.to_N (- z))) as (Hall & Hne & Hv).
    unfold parseInt10. cbn [trimStart].
    change (isWhiteSpace "-") with false. cbv iota zeta.
    change (Ascii.eqb "-" "-") with true.
    change (Ascii.eqb "-" "+") with false. simpl orb. cbv iota.
    rewrite takeDigits_all by exact Hall.
    apply isEmpty_false in Hne. rewrite Hne, Hv. f_equal. lia.
  - rewrite parseInt10_decimal. f_equal. lia.
Qed.

(* ================================================================== *)
(** ** Reconciliation *)

Lemma length_updateAt {A : Type} (l : list A) (i : nat) (f : A -> A) :
  List.length (updateAt l i f) = List.length l.
Proof.
  revert i. induction l as [|x l IH]; intros [|i]; simpl; auto.
Qed.

Lemma map_updateAt {A B : Type} (g : A -> B) (f : A -> A) (l : list A) (i : nat) :
  (forall x, g (f x) = g x) -> map g (updateAt l i f) = map g l.
Proof.
  intros H. revert i. induction l as [|x l IH]; intros [|i]; simpl;
    try rewrite H; try rewrite IH; reflexivity.
Qed.

Lemma find_agree {A : Type} (f g : A -> bool) (l : list A) :
  (forall x, In x l -> f x = g x) -> find f l = find g l.
Proof.
  induction l as [|x l IH]; intros H; [reflexivity|]. simpl.
  rewrite (H x) by now left. destruct (g x); [reflexivity|].
  apply IH. intros y Hy. apply H. now right.
Qed.

Lemma filter_agree {A : Type} (f g : A -> bool) (l : list A) :
  (forall x, In x l -> f x = g x) -> filter f l = filter g l.
Proof.
  induction l as [|x l IH]; intros H; [reflexivity|]. simpl.
  rewrite (H x) by now left. rewrite IH; [reflexivity|].
  intros y Hy. apply H. now right.
Qed.

Lemma launch_start (cached : list PlatformAccessory) (p : Platform) :
  fold_left configureAccessory cached p
  = mkPlatform (heap p ++ cached)
               (accessories p ++ seq (List.length (heap p)) (List.length cached))
               (timers p) (calls p).
Proof.
  revert p. induction cached as [|a cached IH]; intros p; simpl.
  - rewrite !app_nil_r. now destruct p.
  - rewrite IH. simpl. rewrite <- !app_assoc. simpl.
    rewrite length_app. simpl. now rewrite Nat.add_1_r.
Qed.

Section Reconciliation.

Variable generate : string -> string.

Local Abbreviation uuid := (uuidOf generate).
Local Abbreviation setup := (setupRouter generate).
Local Abbreviation start := (launch generate).

(** *** The first loop *)

Lemma knows_lookup (cached : list PlatformAccessory) (p : Platform) (h : nat) :
  knows cached p -> (h < List.length cached)%nat ->
  option_map UUID (nth_error (heap p) h) = option_map UUID (nth_error cached h).
Proof.
  intros [_ (created & E)] Hh.
  rewrite <- !nth_error_map, E.
  apply nth_error_app1. now rewrite length_map.
Qed.

Lemma findAccessory_knows (cached : list PlatformAccessory) (p : Platform)
      (id : string) :
  knows cached p -> findAccessory p id = findCached cached id.
Proof.
  intros K. unfold findAccessory, findCached.
  destruct K as [Ha K']. rewrite Ha. apply find_agree.
  intros h Hh. apply in_seq in Hh.
  pose proof (knows_lookup cached p h (conj Ha K') ltac:(lia)) as E.
  destruct (nth_error (heap p) h), (nth_error cached h); simpl in E;
    congruence.
Qed.

Lemma setupRouter_uuids (p : Platform) (router : RouterConfig) :
  map UUID (heap (setup p router))
  = (map UUID (heap p) ++
     match findAccessory p (uuid router) with
     | Some _ => []
     | None => [uuid router]
     end)%list.
Proof.
  unfold setupRouter. simpl.
  rewrite map_updateAt by reflexivity.
  destruct (findAccessory p (uuid router)).
  - now rewrite app_nil_r.
  - now rewrite map_app.
Qed.

Lemma setupRouter_length (p : Platform) (router : RouterConfig) :
  List.length (heap (setup p router))
  = match findAccessory p (uuid router) with
    | Some _ => List.length (heap p)
    | None => S (List.length (heap p))
    end.
Proof.
  unfold setupRouter. simpl. rewrite length_updateAt.
  destruct (findAccessory p (uuid router)); [reflexivity|].
  rewrite length_app. simpl. lia.
Qed.

Lemma setupRouter_knows (cached : list PlatformAccessory) (p : Platform)
      (router : RouterConfig) :
  knows cached p -> knows cached (setup p router).
Proof.
  intros [Ha (created & E)]. split; [exact Ha|].
  rewrite setupRouter_uuids, E, <- app_assoc. eauto.
Qed.

(** What the first loop of [discoverDevices] leaves behind. *)
Lemma first_loop (cached : list PlatformAccessory) (routers : list RouterConfig)
      (p : Platform) :
  knows cached p ->
  let p1 := fold_left setup routers p in
  let assigned := assign generate cached (List.length (heap p)) routers in
  knows cached p1 /\
  timers p1 = (timers p ++ map timerOf assigned)%list /\
  calls p1 = (calls p ++ flat_map registrationOf assigned)%list.
Proof.
  revert p. induction routers as [|router rest IH]; intros p K; simpl.
  - now rewrite !app_nil_r.
  - pose proof (setupRouter_knows cached p router K) as K1.
    destruct (IH _ K1) as (K2 & Ht & Hc). clear IH.
    rewrite setupRouter_length in Ht, Hc.
    pose proof (findAccessory_knows cached p (uuid router) K) as Ef.
    split; [exact K2|]. rewrite Ht, Hc. clear Ht Hc.
    unfold setupRouter. cbn [timers calls]. rewrite Ef.
    destruct (findCached cached (uuid router)) as [h|]; simpl;
      rewrite <- !app_assoc; simpl; try rewrite app_nil_r; split; reflexivity.
Qed.

(** *** The second loop *)

Lemma second_loop (routers : list RouterConfig) (hs : list nat) (p : Platform) :
  let p2 := fold_left (removeIfMissing generate routers) hs p in
  heap p2 = heap p /\ timers p2 = timers p /\
  calls p2 = (calls p ++
              map (fun h => unregisterPlatformAccessories [h])
                  (filter (fun h => match nth_error (heap p) h with
                                    | Some accessory =>
                                        negb (isConfigured generate routers (UUID accessory))
                                    | None => false
                                    end) hs))%list.
Proof.
  revert p. induction hs as [|h hs IH]; intros p; simpl.
  - now rewrite app_nil_r.
  - destruct (IH (removeIfMissing generate routers p h)) as (Hh & Ht & Hc).
    clear IH. rewrite Hh, Ht, Hc. clear Hh Ht Hc.
    unfold removeIfMissing.
    destruct (nth_error (heap p) h) as [accessory|]; [|auto].
    destruct (negb (isConfigured generate routers (UUID accessory))); simpl;
      [|auto].
    now rewrite <- app_assoc.
Qed.

(** *** The whole of [discoverDevices] after a launch *)

Lemma knows_launch (cached : list PlatformAccessory) :
  knows cached (fold_left configureAccessory cached newPlatform).
Proof.
  rewrite launch_start. split; simpl; [reflexivity|].
  exists []. now rewrite app_nil_r.
Qed.

Lemma launch_effects (cached : list PlatformAccessory)
      (routers : list RouterConfig) :
  let p := start cached (Some routers) in
  let assigned := assign generate cached (List.length cached) routers in
  timers p = map timerOf assigned /\
  calls p = (flat_map registrationOf assigned ++
             map (fun h => unregisterPlatformAccessories [h])
                 (remove (reconcile generate routers cached)))%list /\
  heap p = heap (fold_left setup routers (fold_left configureAccessory cached newPlatform)).
Proof.
  unfold launch, discoverDevices. cbv zeta.
  pose proof (knows_launch cached) as K.
  destruct (first_loop cached routers _ K) as (K1 & Ht & Hc).
  set (p0 := fold_left configureAccessory cached newPlatform) in *.
  set (p1 := fold_left setup routers p0) in *.
  destruct (second_loop routers (accessories p1) p1) as (Hh2 & Ht2 & Hc2).
  assert (E0 : heap p0 = cached /\ timers p0 = [] /\ calls p0 = []).
  { unfold p0. rewrite launch_start. simpl. auto. }
  destruct E0 as (Eh & Et & Ec). rewrite Eh, Et, Ec in *. simpl in Ht, Hc.
  split; [congruence|]. split; [|exact Hh2].
  rewrite Hc2, Hc. f_equal. f_equal. unfold reconcile. simpl.
  destruct K1 as [Ha K1']. rewrite Ha. apply filter_agree.
  intros h Hh. apply in_seq in Hh.
  pose proof (knows_lookup cached p1 h (conj Ha K1') ltac:(lia)) as E.
  destruct (nth_error (heap p1) h), (nth_error cached h); simpl in E;
    congruence.
Qed.

Lemma registrations_of_added (l : list (RouterConfig * nat * bool)) :
  flat_map registrationOf l
  = map (fun e => registerPlatformAccessories [snd e])
        (map fst (filter (fun e => negb (snd e)) l)).
Proof.
  induction l as [|[[r h] [|]] l IH]; simpl in *;
    [reflexivity | exact IH | now f_equal].
Qed.

Lemma registered_app (p : Platform) (A : Type) (B : Type)
      (f : A -> nat) (g : B -> nat) (xs : list A) (ys : list B) :
  calls p = (map (fun x => registerPlatformAccessories [f x]) xs ++
             map (fun y => unregisterPlatformAccessories [g y]) ys)%list ->
  registered p = map (fun x => [f x]) xs /\
  unregistered p = map (fun y => [g y]) ys.
Proof.
  intros E. unfold registered, unregistered. rewrite E, !flat_map_app.
  assert (R1 : forall l : list A,
             flat_map (fun c => match c with
                                | registerPlatformAccessories batch => [batch]
                                | unregisterPlatformAccessories _ => []
                                end)
                      (map (fun x => registerPlatformAccessories [f x]) l)
             = map (fun x => [f x]) l)
    by (induction l as [|x l IH]; simpl; [reflexivity | now rewrite IH]).
  assert (R2 : forall l : list B,
             flat_map (fun c => match c with
                                | registerPlatformAccessories batch => [batch]
                                | unregisterPlatformAccessories _ => []
                                end)
                      (map (fun y => unregisterPlatformAccessories [g y]) l)
             = []) by (induction l as [|x l IH]; simpl; auto).
  assert (U1 : forall l : list A,
             flat_map (fun c => match c with
                                | registerPlatformAccessories _ => []
                                | unregisterPlatformAccessories batch => [batch]
                                end)
                      (map (fun x => registerPlatformAccessories [f x]) l)
             = []) by (induction l as [|x l IH]; simpl; auto).
  assert (U2 : forall l : list B,
             flat_map (fun c => match c with
                                | registerPlatformAccessories _ => []
                                | unregisterPlatformAccessories batch => [batch]
                                end)
                      (map (fun y => unregisterPlatformAccessories [g y]) l)
             = map (fun y => [g y]) l)
    by (induction l as [|x l IH]; simpl; [reflexivity | now rewrite IH]).
  rewrite R1, R2, U1, U2, app_nil_r. auto.
Qed.

Lemma launch_calls (cached : list PlatformAccessory) (routers : list RouterConfig) :
  calls (start cached (Some routers))
  = (map (fun e => registerPlatformAccessories [snd e])
         (add (reconcile generate routers cached)) ++
     map (fun h => unregisterPlatformAccessories [h])
         (remove (reconcile generate routers cached)))%list.
Proof.
  destruct (launch_effects cached routers) as (_ & Hc & _).
  rewrite Hc, registrations_of_added. reflexivity.
Qed.

(** C2, as amended. In a reconciliation pass over named routers the
    registration operation is called once for each added accessory,
    with a list of that one accessory, in the order of the
    configuration, and the unregistration operation once for each
    removed accessory, with a list of that one accessory; the calls are
    as many as the additions and the removals (none when there are
    none). *)
Theorem discoverDevices_calls_per_accessory (cached : list PlatformAccessory)
        (routers : list RouterConfig) :
  allNamed routers ->
  let p := start cached (Some routers) in
  let result := reconcile generate routers cached in
  registered p = map (fun e => [snd e]) (add result) /\
  unregistered p = map (fun h => [h]) (remove result) /\
  List.length (registered p) = List.length (add result) /\
  List.length (unregistered p) = List.length (remove result).
Proof.
  intros _. cbv zeta.
  destruct (registered_app _ _ _ snd (fun h : nat => h) _ _
              (launch_calls cached routers)) as [Hr Hu].
  rewrite Hr, Hu, !length_map. auto.
Qed.

(** *** What the reconciliation holds *)

Lemma findCached_Some (cached : list PlatformAccessory) (id : string) (h : nat) :
  findCached cached id = Some h ->
  exists accessory, nth_error cached h = Some accessory /\ UUID accessory = id.
Proof.
  unfold findCached. intros H. apply find_some in H as [_ H].
  destruct (nth_error cached h) as [accessory|]; [|discriminate].
  exists accessory. split; [reflexivity|]. now apply String.eqb_eq.
Qed.

Lemma findCached_None (cached : list PlatformAccessory) (id : string) :
  findCached cached id = None <->
  forall h accessory, nth_error cached h = Some accessory -> UUID accessory <> id.
Proof.
  unfold findCached. split.
  - intros H h accessory Hn.
    assert (Hh : In h (seq 0 (List.length cached))).
    { apply in_seq. split; [lia|]. simpl. apply nth_error_Some. congruence. }
    pose proof (find_none _ _ H h Hh) as E. simpl in E. rewrite Hn in E.
    now apply String.eqb_neq.
  - intros H. destruct (find _ _) as [h|] eqn:E; [|reflexivity].
    apply find_some in E as [_ E].
    destruct (nth_error cached h) as [accessory|] eqn:En; [|discriminate].
    apply String.eqb_eq in E. now apply H in En.
Qed.


Lemma in_added (l : list (RouterConfig * nat * bool)) (x : RouterConfig * nat) :
  In x (map fst (filter (fun e => negb (snd e)) l)) <-> In (x, false) l.
Proof.
  rewrite in_map_iff. split.
  - intros ([y b] & <- & H). apply filter_In in H as [H Hb].
    simpl in *. apply negb_true_iff in Hb. now subst b.
  - intros H. exists (x, false). split; [reflexivity|]. now apply filter_In.
Qed.

Lemma assign_kept (cached : list PlatformAccessory) (routers : list RouterConfig)
      (next : nat) (r : RouterConfig) (h : nat) :
  In (r, h, true) (assign generate cached next routers) <->
  In r routers /\ findCached cached (uuid r) = Some h.
Proof.
  revert next. induction routers as [|router rest IH]; intros next; simpl.
  - tauto.
  - destruct (findCached cached (uuid router)) as [h0|] eqn:E; simpl;
      rewrite IH; split.
    + intros [H | [H1 H2]]; [inversion H; subst; auto | auto].
    + intros [[<- | H1] H2]; [left; congruence | auto].
    + intros [H | [H1 H2]]; [discriminate | auto].
    + intros [[<- | H1] H2]; [congruence | auto].
Qed.

Lemma assign_added (cached : list PlatformAccessory) (routers : list RouterConfig)
      (next : nat) (r : RouterConfig) (h : nat) :
  In (r, h, false) (assign generate cached next routers) ->
  In r routers /\ findCached cached (uuid r) = None /\ (next <= h)%nat.
Proof.
  revert next. induction routers as [|router rest IH]; intros next; simpl.
  - tauto.
  - destruct (findCached cached (uuid router)) as [h0|] eqn:E; simpl.
    + intros [H | H]; [discriminate|]. apply IH in H. tauto.
    + intros [H | H].
      * inversion H; subst. auto.
      * apply IH in H. intuition lia.
Qed.




Lemma removed_iff (cached : list PlatformAccessory) (routers : list RouterConfig)
      (h : nat) :
  In h (remove (reconcile generate routers cached)) <->
  exists accessory, nth_error cached h = Some accessory /\
                    forall r, In r routers -> uuid r <> UUID accessory.
Proof.
  unfold reconcile. simpl. rewrite filter_In, in_seq. split.
  - intros [_ H]. destruct (nth_error cached h) as [accessory|]; [|discriminate].
    exists accessory. split; [reflexivity|]. intros r Hr E.
    apply negb_true_iff in H.
    assert (Hex : isConfigured generate routers (UUID accessory) = true).
    { apply existsb_exists. exists r. split; [exact Hr|]. now apply String.eqb_eq. }
    congruence.
  - intros (accessory & Hn & H). split.
    + split; [lia|]. simpl. apply nth_error_Some. congruence.
    + rewrite Hn. apply negb_true_iff.
      destruct (isConfigured generate routers (UUID accessory)) eqn:E; [|reflexivity].
      apply existsb_exists in E as (r & Hr & E). apply String.eqb_eq in E.
      now apply H in Hr.
Qed.







End Reconciliation.

(* ================================================================== *)
(** ** The platform on examples *)

Example launchedA_timers : timers launchedA = [timerA].
Proof. reflexivity. Qed.

Example first_poll_connected :
  reportedStatus launchedA 0 = Some UNKNOWN /\
  reportedStatus polledA 0 = Some CONNECTED.
Proof. split; reflexivity. Qed.

(** The scenario of a device at [192.168.1.1]: first poll answered with
    200, second poll refused, third poll answered with 503.  After the
    second poll the reported status is still CONNECTED; the timer is
    there for the third poll, which sets NOT_CONNECTED. *)
Example three_polls :
  exists p2 p3,
    runTicks exampleHostParser examplePathParser launchedA
             [(0, respond 200); (0, refuse)] = Some p2 /\
    reportedStatus p2 0 = Some CONNECTED /\
    timers p2 = [timerA] /\
    runTicks exampleHostParser examplePathParser p2 [(0, respond 503)] = Some p3 /\
    reportedStatus p3 0 = Some NOT_CONNECTED.
Proof.
  eexists. eexists. repeat split.
Qed.

Lemma tick_probe_error_witness :
  tick exampleHostParser examplePathParser refuse polledA timerA
  = (polledA,
     [mkRequest httpGet "192.168.1.1" "" "/" false],
     Resolved tt) /\
  reportedStatus polledA 0 = Some CONNECTED.
Proof.
  split; [|reflexivity].
  apply (tick_probe_error_keeps_status exampleHostParser examplePathParser
           refuse polledA timerA (TransportError "connect ECONNREFUSED")).
  reflexivity.
Defined.

Lemma getRouterStatus_classification_witness :
  getRouterStatus exampleHostParser examplePathParser (respond 301) "192.168.1.1"
  = ([mkRequest httpGet "192.168.1.1" "" "/" false], Resolved true) /\
  getRouterStatus exampleHostParser examplePathParser (respond 404) "192.168.1.1"
  = ([mkRequest httpGet "192.168.1.1" "" "/" false], Resolved false) /\
  getRouterStatus exampleHostParser examplePathParser refuse "192.168.1.1"
  = ([mkRequest httpGet "192.168.1.1" "" "/" false],
     Rejected (TransportError "connect ECONNREFUSED")).
Proof.
  pose (url := mkURL Http "192.168.1.1" None "/").
  split; [|split].
  - destruct (getRouterStatus_classification exampleHostParser examplePathParser
                (respond 301) "192.168.1.1" url eq_refl) as (H & _ & _).
    apply (H 301%Z); [reflexivity | lia].
  - destruct (getRouterStatus_classification exampleHostParser examplePathParser
                (respond 404) "192.168.1.1" url eq_refl) as (_ & H & _).
    apply (H 404%Z); [reflexivity | lia].
  - destruct (getRouterStatus_classification exampleHostParser examplePathParser
                refuse "192.168.1.1" url eq_refl) as (_ & _ & H).
    apply H. reflexivity.
Defined.

Lemma getRouterStatus_not_connected_iff_witness :
  snd (getRouterStatus exampleHostParser examplePathParser (respond 600) "192.168.1.1")
  = Resolved true /\
  snd (getRouterStatus exampleHostParser examplePathParser
         (fun _ => Response None) "192.168.1.1")
  = Resolved true.
Proof.
  pose (url := mkURL Http "192.168.1.1" None "/").
  split.
  - destruct (getRouterStatus_not_connected_iff exampleHostParser examplePathParser
                (respond 600) "192.168.1.1" url (Some 600%Z) eq_refl eq_refl)
      as (_ & H).
    apply H. right. exists 600%Z. split; [reflexivity | lia].
  - destruct (getRouterStatus_not_connected_iff exampleHostParser examplePathParser
                (fun _ => Response None) "192.168.1.1" url None eq_refl eq_refl)
      as (_ & H).
    apply H. now left.
Defined.

Lemma onGet_contains_errors_witness :
  snd (onGet exampleHostParser examplePathParser refuse routerA)
  = Resolved NOT_CONNECTED /\
  snd (onGet exampleHostParser examplePathParser (respond 200)
         (mkRouterConfig "No host" "/" None None None None None))
  = Resolved NOT_CONNECTED.
Proof.
  split.
  - destruct (onGet_contains_errors exampleHostParser examplePathParser
                refuse routerA) as (_ & _ & _ & _ & _ & _ & H).
    apply (H (TransportError "connect ECONNREFUSED")). reflexivity.
  - destruct (onGet_contains_errors exampleHostParser examplePathParser
                (respond 200)
                (mkRouterConfig "No host" "/" None None None None None))
      as (_ & _ & _ & _ & _ & _ & H).
    apply (H (InvalidUrl "/")). reflexivity.
Defined.


(** C2 fails as stated: two routers added in one pass are registered by
    two calls of one accessory each, not by one call with both; and with
    nothing to remove the unregistration operation is not called at
    all. *)
Lemma registration_not_batched :
  let p := launch exampleGenerate [] (Some [routerA; routerB]) in
  let result := reconcile exampleGenerate [routerA; routerB] [] in
  map snd (add result) = [0; 1] /\
  remove result = [] /\
  registered p = [[0]; [1]] /\
  registered p <> [map snd (add result)] /\
  unregistered p = [] /\
  unregistered p <> [remove result].
Proof. cbv zeta. repeat split; try reflexivity; vm_compute; discriminate. Qed.

(* ================================================================== *)
(** ** Further properties of URL normalisation *)

Lemma allChars_app (f : ascii -> bool) (a b : string) :
  allChars f (a ++ b) = allChars f a && allChars f b.
Proof.
  induction a as [|c a IH]; simpl; [reflexivity|].
  now rewrite IH, andb_assoc.
Qed.

Lemma allChars_impl (f g : ascii -> bool) (s : string) :
  (forall c, f c = true -> g c = true) ->
  allChars f s = true -> allChars g s = true.
Proof.
  intros H. induction s as [|c s IH]; simpl; [reflexivity|].
  intros Hs. apply andb_true_iff in Hs as [Hc Hs].
  now rewrite (H c Hc), IH.
Qed.

Lemma stripTrailing_spaces (sp : string) :
  allChars isC0ControlOrSpace sp = true -> stripTrailing sp = "".
Proof.
  induction sp as [|c sp IH]; [reflexivity|]. simpl. intros H.
  apply andb_true_iff in H as [Hc Hs]. now rewrite Hc, IH.
Qed.

Lemma stripLeading_spaces (sp : string) :
  allChars isC0ControlOrSpace sp = true -> stripLeading sp = "".
Proof.
  induction sp as [|c sp IH]; [reflexivity|]. simpl. intros H.
  apply andb_true_iff in H as [Hc Hs]. now rewrite Hc, IH.
Qed.

Lemma stripTrailing_app_spaces (x sp : string) :
  allChars isC0ControlOrSpace sp = true ->
  stripTrailing (x ++ sp) = stripTrailing x.
Proof.
  intros H. induction x as [|c x IH]; simpl.
  - now apply stripTrailing_spaces.
  - now rewrite IH.
Qed.

Lemma preprocess_app_spaces (x sp : string) :
  allChars isC0ControlOrSpace sp = true ->
  preprocess (x ++ sp) = preprocess x.
Proof.
  intros H. unfold preprocess. f_equal.
  induction x as [|c x IH]; simpl.
  - now rewrite stripLeading_spaces.
  - destruct (isC0ControlOrSpace c); [exact IH|].
    now apply (stripTrailing_app_spaces (String c x)).
Qed.

Lemma space_toLower (c : ascii) :
  isC0ControlOrSpace c = true -> toLower c = c.
Proof. all_chars c. Qed.

Lemma startsWithNoCase_app_spaces (pattern x sp : string) :
  allChars (fun p => negb (isC0ControlOrSpace p)) pattern = true ->
  allChars isC0ControlOrSpace sp = true ->
  startsWithNoCase pattern (x ++ sp) = startsWithNoCase pattern x.
Proof.
  intros Hp Hs. revert x.
  induction pattern as [|p pattern IH]; intros x; [reflexivity|].
  simpl in Hp. apply andb_true_iff in Hp as [Hp Hp'].
  destruct x as [|c x]; simpl.
  - destruct sp as [|c sp]; [reflexivity|].
    simpl in Hs. apply andb_true_iff in Hs as [Hc _].
    rewrite (space_toLower c Hc).
    destruct (Ascii.eqb_spec c p) as [->|]; [|reflexivity].
    rewrite Hc in Hp. discriminate.
  - now rewrite (IH Hp').
Qed.

Lemma hasHttpPrefix_app_spaces (x sp : string) :
  allChars isC0ControlOrSpace sp = true ->
  hasHttpPrefix (x ++ sp) = hasHttpPrefix x.
Proof.
  intros H. unfold hasHttpPrefix.
  now rewrite !startsWithNoCase_app_spaces by (reflexivity || exact H).
Qed.

(** An input without a slash does not start with [http://] or
    [https://]. *)
Lemma hasHttpPrefix_no_slash (x : string) :
  allChars (fun c => negb (Ascii.eqb c "/")) x = true -> hasHttpPrefix x = false.
Proof.
  intros H. destruct (hasHttpPrefix x) eqn:E; [|reflexivity].
  apply hasHttpPrefix_cases in E
    as (c1 & c2 & c3 & c4 & rest & _ & _ & _ & _ & [-> | (c5 & _ & ->)]);
    simpl in H; repeat rewrite andb_false_r in H; discriminate.
Qed.

Lemma tidy_no_space (x : string) :
  allChars (fun c => negb (isC0ControlOrSpace c)) x = true -> tidy x = x.
Proof.
  induction x as [|c x IH]; [reflexivity|]. simpl. intros H.
  apply andb_true_iff in H as [Hc Hx]. apply negb_true_iff in Hc.
  rewrite tidy_cons by exact Hc. now rewrite IH.
Qed.

Lemma isAuthorityChar_facts (c : ascii) :
  isAuthorityChar c = true ->
  isC0ControlOrSpace c = false /\ isAuthorityEnd c = false /\
  isSlash c = false /\ Ascii.eqb c "/" = false.
Proof. all_chars c. Qed.

Lemma isPlainHostChar_authority (c : ascii) :
  isPlainHostChar c = true -> isAuthorityChar c = true.
Proof. all_chars c. Qed.

Lemma isDigit_authority (c : ascii) :
  isDigit c = true ->
  isAuthorityChar c = true /\ Ascii.eqb c "@" = false.
Proof. all_chars c. Qed.

(** The authority state on plain host text, with or without credentials
    before it. *)
Lemma authorityState_plain_host (s buffer hostStart : string) (atSignSeen : bool) :
  plainHostText s = true ->
  atSignSeen = false \/ buffer ++ s <> "" ->
  authorityState atSignSeen buffer hostStart s = Some hostStart.
Proof.
  revert buffer. induction s as [|c s IH]; intros buffer H Hne.
  - simpl. destruct Hne as [-> | Hne]; [reflexivity|].
    rewrite append_empty_r in Hne. apply isEmpty_false in Hne.
    now rewrite Hne, andb_false_r.
  - simpl in H. apply andb_true_iff in H as [Hc Hs].
    apply isPlainHostChar_facts in Hc as (_ & He & _ & _ & Ha).
    simpl. rewrite Ha, He. apply IH; [exact Hs|].
    right. rewrite snoc_append. destruct buffer; discriminate.
Qed.

Lemma authorityState_credentials (cred s buffer hostStart : string)
      (atSignSeen : bool) :
  allChars isAuthorityChar cred = true ->
  plainHostText s = true -> s <> "" ->
  authorityState atSignSeen buffer hostStart (cred ++ String "@" s) = Some s.
Proof.
  intros Hc Hs Hne. revert buffer hostStart atSignSeen.
  induction cred as [|c cred IH]; intros buffer hostStart atSignSeen.
  - simpl. apply authorityState_plain_host; [exact Hs|]. now right.
  - simpl in Hc. apply andb_true_iff in Hc as [Hc Hcred].
    apply isAuthorityChar_facts in Hc as (_ & He & _).
    simpl. destruct (Ascii.eqb c "@"); [now apply IH|].
    rewrite He. now apply IH.
Qed.

Lemma isUnbracketedHostChar_facts (c : ascii) :
  isUnbracketedHostChar c = true ->
  isPlainHostChar c = true /\ Ascii.eqb c "[" = false /\
  isAuthorityEnd c = false /\ Ascii.eqb c ":" = false /\
  Ascii.eqb c "@" = false /\ isAuthorityChar c = true.
Proof. all_chars c. Qed.

Lemma authorityState_no_at (x buffer hostStart : string) :
  allChars (fun c => isAuthorityChar c && negb (Ascii.eqb c "@")) x = true ->
  authorityState false buffer hostStart x = Some hostStart.
Proof.
  revert buffer. induction x as [|c x IH]; intros buffer H; [reflexivity|].
  simpl in H. apply andb_true_iff in H as [Hc Hx].
  apply andb_true_iff in Hc as [Hc Ha]. apply negb_true_iff in Ha.
  apply isAuthorityChar_facts in Hc as (_ & He & _).
  simpl. rewrite Ha, He. now apply IH.
Qed.

Lemma hostState_then_port (s buffer afterColon : string) :
  allChars isUnbracketedHostChar s = true -> buffer ++ s <> "" ->
  hostState false buffer (s ++ String ":" afterColon)
  = Some (buffer ++ s, ToPort afterColon).
Proof.
  revert buffer. induction s as [|c s IH]; intros buffer H Hne.
  - rewrite append_empty_r in *. simpl.
    apply isEmpty_false in Hne. now rewrite Hne.
  - simpl in H. apply andb_true_iff in H as [Hc Hs].
    apply isUnbracketedHostChar_facts in Hc as (_ & Hb & He & Hcolon & _).
    simpl. rewrite Hcolon, He, Hb. simpl.
    destruct (Ascii.eqb c "]");
      (rewrite IH; [now rewrite snoc_append | exact Hs |];
       rewrite snoc_append; destruct buffer; discriminate).
Qed.

Lemma portState_all_digits (digits buffer : string) :
  allChars isDigit digits = true ->
  portState buffer digits = Some (buffer ++ digits, "").
Proof.
  revert buffer. induction digits as [|c ds IH]; intros buffer H; simpl.
  - now rewrite append_empty_r.
  - simpl in H. apply andb_true_iff in H as [Hc Hs].
    rewrite Hc, IH by exact Hs. now rewrite snoc_append.
Qed.

Lemma parseAuthority_host_port (s digits : string) :
  s <> "" -> allChars isUnbracketedHostChar s = true ->
  allChars isDigit digits = true ->
  hasHttpPrefix (s ++ String ":" digits) = false /\
  parseAuthority ("http://" ++ s ++ String ":" digits)
  = Some (mkAuthority Http s (Some digits) "").
Proof.
  intros Hne Hs Hd.
  assert (Hall : allChars (fun c => isAuthorityChar c && negb (Ascii.eqb c "@"))
                          (s ++ String ":" digits) = true).
  { rewrite allChars_app. apply andb_true_iff. split.
    - apply (allChars_impl isUnbracketedHostChar); [|exact Hs].
      intros c Hc. apply isUnbracketedHostChar_facts in Hc
        as (_ & _ & _ & _ & -> & ->). reflexivity.
    - simpl. apply (allChars_impl isDigit); [|exact Hd].
      intros c Hc. apply isDigit_authority in Hc as (-> & ->). reflexivity. }
  assert (Hauth : allChars isAuthorityChar (s ++ String ":" digits) = true).
  { apply (allChars_impl _ _ _ (fun c Hc => proj1 (proj1 (andb_true_iff _ _) Hc)) Hall). }
  split.
  - apply hasHttpPrefix_no_slash.
    apply (allChars_impl isAuthorityChar); [|exact Hauth].
    intros c Hc. apply isAuthorityChar_facts in Hc as (_ & _ & _ & ->).
    reflexivity.
  - rewrite parseAuthority_http, tidy_no_space.
    2:{ apply (allChars_impl isAuthorityChar); [|exact Hauth].
        intros c Hc. apply isAuthorityChar_facts in Hc as (-> & _).
        reflexivity. }
    unfold authorityFrom. simpl ignoreSlashes.
    destruct s as [|c s]; [congruence|].
    pose proof Hs as Hs'. simpl in Hs'. apply andb_true_iff in Hs' as [Hc _].
    apply isUnbracketedHostChar_facts in Hc as (Hc & _).
    apply isPlainHostChar_facts in Hc as (_ & _ & Hslash & _).
    change (String c s ++ String ":" digits)
      with (String c (s ++ String ":" digits)).
    simpl ignoreSlashes. rewrite Hslash. 
    change (String c (s ++ String ":" digits))
      with (String c s ++ String ":" digits).
    rewrite authorityState_no_at by exact Hall.
    rewrite hostState_then_port by (exact Hs || discriminate).
    simpl. now rewrite portState_all_digits.
Qed.

(** The scheme found in an input that starts with [http://] or
    [https://], told by the test for [https://]. *)
Lemma parseAuthority_prefixed_scheme (s : string) :
  hasHttpPrefix s = true ->
  exists rest,
    parseAuthority s
    = authorityFrom (if startsWithNoCase "https://" s then Https else Http)
                    (String "/" (String "/" (tidy rest))).
Proof.
  intros H.
  destruct (hasHttpPrefix_cases s H)
    as (c1 & c2 & c3 & c4 & rest & L1 & L2 & L3 & L4 & Hs).
  destruct (lower_letter_facts c1 _ L1 eq_refl) as (A1 & S1 & K1 & N1).
  destruct (lower_letter_facts c2 _ L2 eq_refl) as (A2 & S2 & K2 & N2).
  destruct (lower_letter_facts c3 _ L3 eq_refl) as (A3 & S3 & K3 & N3).
  destruct (lower_letter_facts c4 _ L4 eq_refl) as (A4 & S4 & K4 & N4).
  destruct Hs as [-> | (c5 & L5 & ->)]; exists rest.
  - assert (E : startsWithNoCase "https://"
                  (String c1 (String c2 (String c3 (String c4 ("://" ++ rest)))))
                = false).
    { simpl. rewrite L1, L2, L3, L4. reflexivity. }
    rewrite E. unfold parseAuthority. rewrite preprocess_cons by assumption.
    rewrite !tidy_cons by (assumption || reflexivity).
    unfold schemeStartState. rewrite A1. simpl schemeState.
    rewrite K2, K3, K4, L1, L2, L3, L4. reflexivity.
  - destruct (lower_letter_facts c5 _ L5 eq_refl) as (A5 & S5 & K5 & N5).
    assert (E : startsWithNoCase "https://"
                  (String c1 (String c2 (String c3 (String c4
                     (String c5 ("://" ++ rest))))))
                = true).
    { simpl. rewrite L1, L2, L3, L4, L5. reflexivity. }
    rewrite E. unfold parseAuthority. rewrite preprocess_cons by assumption.
    rewrite !tidy_cons by (assumption || reflexivity).
    unfold schemeStartState. rewrite A1. simpl schemeState.
    rewrite K2, K3, K4, K5, L1, L2, L3, L4, L5. reflexivity.
Qed.

Section MoreUrlProperties.

Variable hostParser : string -> option string.
Variable pathParser : string -> string.

Local Abbreviation newURL := (URL_new hostParser pathParser).
Local Abbreviation parse := (parseUrl hostParser pathParser).
Local Abbreviation probe := (getRouterStatus hostParser pathParser).

Lemma parseUrl_plain (s : string) :
  s <> "" -> plainHostText s = true ->
  parse s = match hostParser s with
            | Some h => Some (mkURL Http h None (pathParser ""))
            | None => None
            end.
Proof.
  intros Hne H. rewrite parseUrl_is_URL_new. unfold urlText.
  rewrite hasHttpPrefix_plain by exact H. simpl negb. cbv iota.
  unfold URL_new. rewrite parseAuthority_plain by assumption. simpl.
  destruct (hostParser s); reflexivity.
Qed.

(** X1. White space after the address does not matter: an input followed
    by any run of spaces and C0 control characters is normalised like
    the input itself. *)
Theorem parseUrl_trailing_space (inputUrl spaces : string) :
  allChars isC0ControlOrSpace spaces = true ->
  parse (inputUrl ++ spaces) = parse inputUrl.
Proof.
  intros H. rewrite !parseUrl_is_URL_new. unfold urlText.
  rewrite hasHttpPrefix_app_spaces by exact H.
  unfold URL_new, parseAuthority.
  destruct (negb (hasHttpPrefix inputUrl)).
  - change ("http://" ++ (inputUrl ++ spaces))
      with (("http://" ++ inputUrl) ++ spaces).
    now rewrite preprocess_app_spaces.
  - now rewrite preprocess_app_spaces.
Qed.

(** In the components the program reads, an address with credentials
    is parsed like the address without them. *)
Lemma parseUrl_credentials_components (cred hostText : string) :
  allChars isAuthorityChar cred = true ->
  plainHostText hostText = true -> hostText <> "" ->
  parse (cred ++ String "@" hostText) = parse hostText.
Proof.
  intros Hc Hs Hne.
  assert (Hall : allChars isAuthorityChar (cred ++ String "@" hostText) = true).
  { rewrite allChars_app, Hc. simpl.
    now apply (allChars_impl isPlainHostChar), Hs; apply isPlainHostChar_authority. }
  rewrite (parseUrl_plain hostText Hne Hs).
  rewrite parseUrl_is_URL_new. unfold urlText.
  rewrite hasHttpPrefix_no_slash.
  2:{ apply (allChars_impl isAuthorityChar); [|exact Hall].
      intros c Hcc. apply isAuthorityChar_facts in Hcc as (_ & _ & _ & ->).
      reflexivity. }
  simpl negb. cbv iota. unfold URL_new.
  rewrite parseAuthority_http, tidy_no_space.
  2:{ apply (allChars_impl isAuthorityChar); [|exact Hall].
      intros c Hcc. apply isAuthorityChar_facts in Hcc as (-> & _).
      reflexivity. }
  unfold authorityFrom. simpl ignoreSlashes.
  assert (Hskip : ignoreSlashes (cred ++ String "@" hostText)
                  = cred ++ String "@" hostText).
  { destruct cred as [|c cred]; [reflexivity|]. simpl in Hc.
    apply andb_true_iff in Hc as [Hcc _].
    apply isAuthorityChar_facts in Hcc as (_ & _ & Hsl & _).
    simpl. now rewrite Hsl. }
  rewrite Hskip, authorityState_credentials by assumption.
  rewrite hostState_plain by (exact Hs || (simpl; exact Hne)). simpl.
  destruct (hostParser hostText); reflexivity.
Qed.

(** X3. Credentials in the address are never sent: for an address
    [cred@host], with plain host text [host] and credentials without
    white space or [/ \ ? #], the probe makes the same requests as for
    [host] alone (none when the host is rejected, else one request with
    the same module, host name, port and path). *)
Theorem getRouterStatus_ignores_credentials (cred hostText : string)
        (net : Network) :
  allChars isAuthorityChar cred = true ->
  plainHostText hostText = true -> hostText <> "" ->
  fst (probe net (cred ++ String "@" hostText)) = fst (probe net hostText) /\
  fst (probe net hostText)
  = match hostParser hostText with
    | Some h => [mkRequest httpGet h "" (pathParser "") false]
    | None => []
    end.
Proof.
  intros Hc Hs Hne.
  pose proof (parseUrl_credentials_components cred hostText Hc Hs Hne) as E.
  unfold getRouterStatus. rewrite E, (parseUrl_plain hostText Hne Hs).
  destruct (hostParser hostText); split; reflexivity.
Qed.

Lemma parseUrl_spaces (s : string) :
  allChars isC0ControlOrSpace s = true -> parse s = None.
Proof.
  intros H. rewrite parseUrl_is_URL_new. unfold urlText.
  rewrite hasHttpPrefix_spaces by exact H. simpl negb. cbv iota.
  unfold URL_new. now rewrite parseAuthority_http, tidy_spaces by exact H.
Qed.

(** X2. An address [host:port], for plain host text without a bracket
    and a port of digits: [parseUrl] throws when the host parser rejects
    the host and when the port's number is above 65535; otherwise it
    returns the http URL of that host, with the port's number, or with
    no port when the number is 80. *)
Theorem parseUrl_host_port (hostText digits : string) :
  hostText <> "" -> allChars isUnbracketedHostChar hostText = true ->
  digits <> "" -> allChars isDigit digits = true ->
  parse (hostText ++ String ":" digits)
  = match hostParser hostText with
    | None => None
    | Some h =>
        if (65535 <? digitsValue digits)%N then None
        else Some (mkURL Http h
                     (if (digitsValue digits =? 80)%N then None
                      else Some (digitsValue digits))
                     (pathParser ""))
    end.
Proof.
  intros Hne Hs Hdne Hd.
  destruct (parseAuthority_host_port hostText digits Hne Hs Hd) as [Hp Ha].
  rewrite parseUrl_is_URL_new. unfold urlText. rewrite Hp. simpl negb. cbv iota.
  unfold URL_new. rewrite Ha. simpl.
  destruct (hostParser hostText); [|reflexivity].
  unfold portOfBuffer. apply isEmpty_false in Hdne. rewrite Hdne.
  destruct (65535 <? digitsValue digits)%N; reflexivity.
Qed.

(** X4. The probe's request goes through [https.get] exactly when the
    address starts with [https://] (in any case), and through
    [http.get] otherwise, whatever port the address names; certificate
    errors are always ignored. *)
Theorem getRouterStatus_module (inputUrl : string) (url : URL) :
  parse inputUrl = Some url ->
  getModule (requestFor url)
  = (if startsWithNoCase "https://" inputUrl then httpsGet else httpGet) /\
  rejectUnauthorized (requestFor url) = false.
Proof.
  intros H. split; [|reflexivity].
  apply parseUrl_inv in H as (a & h & p & Ha & _ & _ & ->).
  unfold requestFor, protocol. cbn [getModule scheme].
  assert (E : authScheme a
              = if startsWithNoCase "https://" inputUrl then Https else Http).
  { unfold urlText in Ha. destruct (hasHttpPrefix inputUrl) eqn:Ep; simpl in Ha.
    - destruct (parseAuthority_prefixed_scheme inputUrl Ep) as (rest & Hr).
      rewrite Hr in Ha. now apply authorityFrom_scheme in Ha.
    - change (String "h" (String "t" (String "t" (String "p"
               (String ":" (String "/" (String "/" inputUrl)))))))
        with ("http://" ++ inputUrl) in Ha.
      rewrite parseAuthority_http in Ha. apply authorityFrom_scheme in Ha.
      unfold hasHttpPrefix in Ep. apply orb_false_iff in Ep as [_ Ep].
      now rewrite Ep. }
  rewrite E. destruct (startsWithNoCase "https://" inputUrl); reflexivity.
Qed.

(** X5. A router whose address is empty or only white space is never
    probed over the network: the probe rejects without a request, the
    [onGet] handler answers NOT_CONNECTED, and a tick of its timer
    leaves the platform as it is. *)
Theorem blank_address_never_requested (net : Network) (p : Platform)
        (t : Timer) (router : RouterConfig) :
  allChars isC0ControlOrSpace (homepageUrl router) = true ->
  timerRouter t = router ->
  probe net (homepageUrl router) = ([], Rejected (InvalidUrl (homepageUrl router))) /\
  onGet hostParser pathParser net router = ([], Resolved NOT_CONNECTED) /\
  tick hostParser pathParser net p t = (p, [], Resolved tt).
Proof.
  intros H Ht.
  assert (E : probe net (homepageUrl router)
              = ([], Rejected (InvalidUrl (homepageUrl router)))).
  { unfold getRouterStatus. now rewrite parseUrl_spaces. }
  split; [exact E|]. unfold onGet, tick. rewrite Ht, E. auto.
Qed.

End MoreUrlProperties.

(* ================================================================== *)
(** ** Further properties of the polling period *)

Lemma trimStart_spaces (ws s : string) :
  allChars isWhiteSpace ws = true -> trimStart (ws ++ s) = trimStart s.
Proof.
  induction ws as [|c ws IH]; [reflexivity|]. simpl. intros H.
  apply andb_true_iff in H as [Hc Hs]. rewrite Hc. now apply IH.
Qed.

Lemma takeDigits_prefix (digits rest : string) :
  allChars isDigit digits = true -> startsWithDigit rest = false ->
  takeDigits (digits ++ rest) = digits.
Proof.
  intros Hd Hr. induction digits as [|c ds IH]; simpl.
  - destruct rest as [|c rest]; [reflexivity|]. simpl in *. now rewrite Hr.
  - simpl in Hd. apply andb_true_iff in Hd as [Hc Hs]. rewrite Hc.
    now rewrite IH.
Qed.

Lemma parseInt10_decimal_prefix (n : N) (rest : string) :
  startsWithDigit rest = false ->
  parseInt10 (decimal n ++ rest) = Some (Z.of_N n).
Proof.
  intros Hr. destruct (decimal_spec n) as (Hall & Hne & Hv).
  pose proof (takeDigits_prefix _ _ Hall Hr) as Ht.
  unfold parseInt10. destruct (decimal n) as [|c ds] eqn:E; [congruence|].
  pose proof Hall as Hc. simpl in Hc. apply andb_true_iff in Hc as [Hc _].
  destruct (isDigit_facts c Hc) as (Hw & Hplus & Hminus).
  change (String c ds ++ rest) with (String c (ds ++ rest)) in *.
  cbn [trimStart]. rewrite Hw. cbv zeta. rewrite Hplus, Hminus. simpl orb. cbv iota.
  rewrite Ht. cbn [isEmpty]. cbv iota. rewrite Hv. f_equal. lia.
Qed.

Lemma parseInt10_decimalZ_prefix (z : Z) (rest : string) :
  startsWithDigit rest = false ->
  parseInt10 (decimalZ z ++ rest) = Some z.
Proof.
  intros Hr. unfold decimalZ. destruct (Z.ltb_spec z 0) as [Hneg | Hpos].
  - destruct (decimal_spec (Z.to_N (- z))) as (Hall & Hne & Hv).
    pose proof (takeDigits_prefix _ _ Hall Hr) as Ht.
    unfold parseInt10.
    change (String "-" (decimal (Z.to_N (- z))) ++ rest)
      with (String "-" (decimal (Z.to_N (- z)) ++ rest)).
    cbn [trimStart].
    change (isWhiteSpace "-") with false. cbv iota zeta.
    change (Ascii.eqb "-" "-") with true.
    change (Ascii.eqb "-" "+") with false. simpl orb. cbv iota.
    rewrite Ht. apply isEmpty_false in Hne. rewrite Hne, Hv. f_equal. lia.
  - rewrite parseInt10_decimal_prefix by exact Hr. f_equal. lia.
Qed.

(** X6. Only the leading integer of [pollingInterval] counts: white
    space before it and any text after it that does not start with a
    digit (a unit, a fraction, an exponent) are ignored, for every
    integer that a JavaScript number holds exactly. *)
Theorem pollingInterval_leading_integer (router : RouterConfig) (n : Z)
        (space rest : string) :
  (Z.abs n <= 2 ^ 53)%Z ->
  allChars isWhiteSpace space = true ->
  startsWithDigit rest = false ->
  pollingInterval router = Some (space ++ decimalZ n ++ rest) ->
  effectivePollingInterval router = n.
Proof.
  intros _ Hs Hr Hp.
  unfold effectivePollingInterval, parsedPollingInterval. rewrite Hp. simpl.
  pose proof (parseInt10_decimalZ_prefix n rest Hr) as E.
  unfold parseInt10 in *. rewrite trimStart_spaces by exact Hs.
  now rewrite E.
Qed.

(* ================================================================== *)
(** ** Further properties of reconciliation *)

Lemma nth_error_updateAt_same {A : Type} (l : list A) (i : nat) (f : A -> A) :
  nth_error (updateAt l i f) i = option_map f (nth_error l i).
Proof.
  revert i. induction l as [|x l IH]; intros [|i]; simpl; auto.
Qed.

Lemma nth_error_updateAt_other {A : Type} (l : list A) (i j : nat) (f : A -> A) :
  i <> j -> nth_error (updateAt l i f) j = nth_error l j.
Proof.
  revert i j. induction l as [|x l IH]; intros [|i] [|j] H; simpl; auto;
    try congruence.
Qed.

(** Setting an accessory up again overrides all that the first set-up
    wrote. *)
Lemma configureFor_absorbs (r1 r2 : RouterConfig) (a : PlatformAccessory) :
  configureFor r2 (configureFor r1 a) = configureFor r2 a.
Proof. reflexivity. Qed.

Lemma lastFor_In (l : list (RouterConfig * nat * bool)) (h : nat) (r : RouterConfig) :
  lastFor l h = Some r -> exists known, In (r, h, known) l.
Proof.
  induction l as [|[[r0 h0] b0] l IH]; simpl; [discriminate|].
  destruct (lastFor l h) as [r'|].
  - intros H. destruct (IH H) as (b & Hb). exists b. now right.
  - destruct (Nat.eqb_spec h0 h) as [->|]; [|discriminate].
    intros H. inversion H; subst. exists b0. now left.
Qed.

Lemma In_lastFor (l : list (RouterConfig * nat * bool)) (h : nat)
      (r : RouterConfig) (known : bool) :
  In (r, h, known) l -> exists r', lastFor l h = Some r'.
Proof.
  induction l as [|[[r0 h0] b0] l IH]; simpl; [tauto|].
  intros [H | H].
  - inversion H; subst. destruct (lastFor l h); [eauto|].
    rewrite Nat.eqb_refl. eauto.
  - destruct (IH H) as (r' & ->). eauto.
Qed.

Section MoreReconciliation.

Variable generate : string -> string.

Local Abbreviation uuid := (uuidOf generate).
Local Abbreviation setup := (setupRouter generate).
Local Abbreviation start := (launch generate).

Lemma knows_length (cached : list PlatformAccessory) (p : Platform) :
  knows cached p -> (List.length cached <= List.length (heap p))%nat.
Proof.
  intros [_ (created & E)].
  apply (f_equal (@List.length string)) in E.
  rewrite length_app, !length_map in E. lia.
Qed.

Lemma findAccessory_found (p : Platform) (id : string) (h : nat) :
  findAccessory p id = Some h ->
  exists accessory, nth_error (heap p) h = Some accessory.
Proof.
  unfold findAccessory. intros H. apply find_some in H as [_ H].
  destruct (nth_error (heap p) h); [eauto | discriminate].
Qed.

(** The heap after one router is set up. *)
Lemma setupRouter_heap (p : Platform) (router : RouterConfig) (h : nat) :
  nth_error (heap (setup p router)) h
  = if Nat.eqb (match findAccessory p (uuid router) with
                | Some h0 => h0
                | None => List.length (heap p)
                end) h
    then Some (configureFor router
                 (accessoryFor generate router (nth_error (heap p) h)))
    else nth_error (heap p) h.
Proof.
  unfold setupRouter. cbn [heap].
  destruct (findAccessory p (uuid router)) as [h0|] eqn:E.
  - destruct (Nat.eqb_spec h0 h) as [->|Hne].
    + rewrite nth_error_updateAt_same.
      destruct (findAccessory_found _ _ _ E) as (a & ->). reflexivity.
    + now rewrite nth_error_updateAt_other.
  - destruct (Nat.eqb_spec (List.length (heap p)) h) as [<-|Hne].
    + rewrite nth_error_updateAt_same.
      rewrite nth_error_app2, Nat.sub_diag by lia. simpl.
      assert (En : nth_error (heap p) (List.length (heap p)) = None)
        by (apply nth_error_None; lia).
      now rewrite En.
    + rewrite nth_error_updateAt_other by exact Hne.
      destruct (Nat.lt_ge_cases h (List.length (heap p))) as [Hlt | Hge].
      * now rewrite nth_error_app1.
      * assert (En : nth_error (heap p) h = None) by (now apply nth_error_None).
        rewrite En. apply nth_error_None. rewrite length_app. simpl. lia.
Qed.

(** The heap after the first loop: an accessory no router was set up on
    is as before, any other is the accessory found there (or a new one)
    as configured for the last router set up on it. *)
Lemma first_loop_heap (cached : list PlatformAccessory)
      (routers : list RouterConfig) (p : Platform) (h : nat) :
  knows cached p ->
  nth_error (heap (fold_left setup routers p)) h
  = match lastFor (assign generate cached (List.length (heap p)) routers) h with
    | None => nth_error (heap p) h
    | Some r =>
        Some (configureFor r (accessoryFor generate r (nth_error (heap p) h)))
    end.
Proof.
  revert p. induction routers as [|router rest IH]; intros p K; [reflexivity|].
  pose proof (setupRouter_knows generate cached p router K) as K1.
  pose proof (findAccessory_knows cached p (uuid router) K) as Ef.
  pose proof (setupRouter_length generate p router) as El.
  pose proof (setupRouter_heap p router h) as Eh.
  pose proof (knows_length cached p K) as Hlen.
  cbn [fold_left assign]. rewrite (IH _ K1). clear IH. rewrite El, Eh.
  destruct (findAccessory p (uuid router)) as [h0|] eqn:Efa; rewrite <- Ef;
    cbn [lastFor fst snd].
  - destruct (lastFor _ h) as [r|]; [|destruct (Nat.eqb h0 h); reflexivity].
    destruct (Nat.eqb_spec h0 h) as [->|]; [|reflexivity].
    destruct (findAccessory_found _ _ _ Efa) as (a & ->). reflexivity.
  - destruct (lastFor _ h) as [r|] eqn:El';
      [|destruct (Nat.eqb (List.length (heap p)) h); reflexivity].
    destruct (Nat.eqb_spec (List.length (heap p)) h) as [<-|]; [|reflexivity].
    exfalso. apply lastFor_In in El' as ([|] & Hin).
    + apply assign_kept in Hin as [_ Hf].
      apply findCached_Some in Hf as (a & Hn & _).
      assert (List.length (heap p) < List.length cached)%nat
        by (apply nth_error_Some; congruence).
      lia.
    + apply assign_added in Hin as (_ & _ & Hge). lia.
Qed.

Lemma launch_accessories (cached : list PlatformAccessory)
      (routers : list RouterConfig) :
  accessories (start cached (Some routers)) = seq 0 (List.length cached).
Proof.
  unfold launch, discoverDevices. cbv zeta.
  destruct (first_loop generate cached routers _ (knows_launch cached))
    as ([Ha _] & _).
  set (p1 := fold_left setup routers _) in *.
  assert (E : forall hs p,
             accessories (fold_left (removeIfMissing generate routers) hs p)
             = accessories p).
  { induction hs as [|h hs IH]; intros p; [reflexivity|]. simpl.
    rewrite IH. unfold removeIfMissing.
    destruct (nth_error (heap p) h); [|reflexivity].
    destruct (negb _); reflexivity. }
  now rewrite E.
Qed.

(** The heap after [discoverDevices]. *)
Lemma launch_heap (cached : list PlatformAccessory)
      (routers : list RouterConfig) (h : nat) :
  nth_error (heap (start cached (Some routers))) h
  = match lastFor (assign generate cached (List.length cached) routers) h with
    | None => nth_error cached h
    | Some r =>
        Some (configureFor r (accessoryFor generate r (nth_error cached h)))
    end.
Proof.
  destruct (launch_effects generate cached routers) as (_ & _ & Hh).
  rewrite Hh, (first_loop_heap cached routers _ h (knows_launch cached)).
  rewrite launch_start. reflexivity.
Qed.

(** The timers after [discoverDevices] and the routers' handles. *)
Lemma launch_timer_assigned (cached : list PlatformAccessory)
      (routers : list RouterConfig) (t : Timer) :
  In t (timers (start cached (Some routers))) <->
  exists known,
    In (timerRouter t, timerAccessory t, known)
       (assign generate cached (List.length cached) routers) /\
    timerPeriod t = effectivePollingInterval (timerRouter t).
Proof.
  destruct (launch_effects generate cached routers) as (Ht & _).
  rewrite Ht, in_map_iff. split.
  - intros ([[r h] b] & <- & Hin). exists b. now split.
  - intros (b & Hin & Hp). exists (timerRouter t, timerAccessory t, b).
    split; [|exact Hin]. destruct t. unfold timerOf. simpl in *. now rewrite Hp.
Qed.

Lemma assign_routers (cached : list PlatformAccessory) (next : nat)
      (routers : list RouterConfig) :
  map (fun e => fst (fst e)) (assign generate cached next routers) = routers.
Proof.
  revert next. induction routers as [|router rest IH]; intros next; simpl;
    [reflexivity|].
  destruct (findCached cached (uuid router)); simpl; now rewrite IH.
Qed.

Lemma assign_added_unique (cached : list PlatformAccessory) (next : nat)
      (routers : list RouterConfig) (r r' : RouterConfig) (h : nat) :
  In (r, h, false) (assign generate cached next routers) ->
  In (r', h, false) (assign generate cached next routers) ->
  r = r'.
Proof.
  revert next. induction routers as [|router rest IH]; intros next; simpl;
    [tauto|].
  destruct (findCached cached (uuid router)); simpl.
  - intros [H | H] [H' | H']; try discriminate. now apply (IH next).
  - intros [H | H] [H' | H'].
    + congruence.
    + inversion H; subst. apply assign_added in H' as (_ & _ & Hge). lia.
    + inversion H'; subst. apply assign_added in H as (_ & _ & Hge). lia.
    + now apply (IH (S next)).
Qed.

(** Two routers set up on one handle have one identity. *)
Lemma same_handle_same_uuid (cached : list PlatformAccessory)
      (routers : list RouterConfig) (r r' : RouterConfig) (h : nat)
      (known known' : bool) :
  In (r, h, known) (assign generate cached (List.length cached) routers) ->
  In (r', h, known') (assign generate cached (List.length cached) routers) ->
  uuid r = uuid r'.
Proof.
  intros H H'. destruct known, known'.
  - apply assign_kept in H as [_ H]. apply assign_kept in H' as [_ H'].
    apply findCached_Some in H as (a & Hn & Hu).
    apply findCached_Some in H' as (a' & Hn' & Hu'). congruence.
  - apply assign_kept in H as [_ H]. apply findCached_Some in H as (a & Hn & _).
    apply assign_added in H' as (_ & _ & Hge).
    assert (h < List.length cached)%nat by (apply nth_error_Some; congruence).
    lia.
  - apply assign_kept in H' as [_ H']. apply findCached_Some in H' as (a & Hn & _).
    apply assign_added in H as (_ & _ & Hge).
    assert (h < List.length cached)%nat by (apply nth_error_Some; congruence).
    lia.
  - f_equal. eapply assign_added_unique; eassumption.
Qed.

(** The accessory of a timer: the accessory found in the cache under
    the timer's handle, or a new one, as configured for a router of the
    same identity as the timer's. *)
Lemma timer_accessory (cached : list PlatformAccessory)
      (routers : list RouterConfig) (t : Timer) :
  In t (timers (start cached (Some routers))) ->
  exists r known,
    In (r, timerAccessory t, known)
       (assign generate cached (List.length cached) routers) /\
    uuid r = uuid (timerRouter t) /\
    nth_error (heap (start cached (Some routers))) (timerAccessory t)
    = Some (configureFor r
              (accessoryFor generate r (nth_error cached (timerAccessory t)))).
Proof.
  intros Ht. apply launch_timer_assigned in Ht as (b & Hin & _).
  destruct (In_lastFor _ _ _ _ Hin) as (r & Hl).
  destruct (lastFor_In _ _ _ Hl) as (b' & Hin').
  exists r, b'. split; [exact Hin'|]. split.
  - eapply same_handle_same_uuid; eassumption.
  - now rewrite launch_heap, Hl.
Qed.

Lemma assigned_original (cached : list PlatformAccessory)
      (routers : list RouterConfig) (r : RouterConfig) (h : nat) (known : bool) :
  In (r, h, known) (assign generate cached (List.length cached) routers) ->
  In r routers /\
  UUID (accessoryFor generate r (nth_error cached h)) = uuid r /\
  (known = false -> nth_error cached h = None).
Proof.
  intros H. destruct known.
  - apply assign_kept in H as [Hr H].
    apply findCached_Some in H as (a & -> & Hu).
    split; [exact Hr|]. split; [exact Hu | discriminate].
  - apply assign_added in H as (Hr & _ & Hge).
    assert (E : nth_error cached h = None) by (now apply nth_error_None).
    rewrite E. split; [exact Hr|]. split; [reflexivity | auto].
Qed.

Lemma no_element_nil {A : Type} (l : list A) : (forall x, ~ In x l) -> l = [].
Proof.
  destruct l as [|x l]; [reflexivity|]. intros H. exfalso. apply (H x). now left.
Qed.

(** X7. For named routers, [discoverDevices] starts exactly one timer
    for each configured router, in the order of the configuration; the
    accessory a timer updates is on the heap, carries the UUID of the
    timer's router and has a WiFiSatellite service. *)
Theorem discoverDevices_timers (cached : list PlatformAccessory)
        (routers : list RouterConfig) :
  allNamed routers ->
  let p := start cached (Some routers) in
  map timerRouter (timers p) = routers /\
  forall t, In t (timers p) ->
    hasSatellite p (timerAccessory t) = true /\
    exists accessory,
      nth_error (heap p) (timerAccessory t) = Some accessory /\
      UUID accessory = uuid (timerRouter t).
Proof.
  intros _. cbv zeta. split.
  - destruct (launch_effects generate cached routers) as (Ht & _).
    rewrite Ht, map_map. apply assign_routers.
  - intros t Ht. destruct (timer_accessory cached routers t Ht)
      as (r & b & Hin & Hu & Hh).
    unfold hasSatellite. rewrite Hh. split; [reflexivity|].
    eexists. split; [reflexivity|]. simpl.
    apply assigned_original in Hin as (_ & E & _). congruence.
Qed.

(** X8. For named routers, when a configured router is the only one of
    its identity, the accessory of its timer (cached or new) ends the
    pass with the router as its [context.device] and with a
    WiFiSatellite service whose [onGet] handler probes this router:
    nothing of an earlier owner of a cached accessory is left there. *)
Theorem discoverDevices_context_and_handler (cached : list PlatformAccessory)
        (routers : list RouterConfig) (t : Timer) :
  let p := start cached (Some routers) in
  let router := timerRouter t in
  allNamed routers ->
  In t (timers p) ->
  (forall r, In r routers -> uuid r = uuid router -> r = router) ->
  exists accessory service,
    nth_error (heap p) (timerAccessory t) = Some accessory /\
    contextDevice accessory = Some router /\
    wiFiSatelliteService accessory = Some service /\
    satelliteOnGet service = Some router.
Proof.
  cbv zeta. intros _ Ht Huniq.
  destruct (timer_accessory cached routers t Ht) as (r & b & Hin & Hu & Hh).
  apply assigned_original in Hin as (Hr & _).
  rewrite (Huniq r Hr Hu) in Hh.
  eexists. eexists. split; [exact Hh|]. simpl. repeat split; reflexivity.
Qed.

(** X9. An accessory restored from the cache keeps its display name,
    its UUID and the status it reported (UNKNOWN when it had no
    WiFiSatellite service yet) through [discoverDevices]; a newly
    created accessory is named after its router, carries the router's
    UUID and reports UNKNOWN. *)
Theorem discoverDevices_keeps_state (cached : list PlatformAccessory)
        (routers : list RouterConfig) (t : Timer) :
  let p := start cached (Some routers) in
  let h := timerAccessory t in
  In t (timers p) ->
  (forall old, nth_error cached h = Some old ->
     exists accessory,
       nth_error (heap p) h = Some accessory /\
       displayName accessory = displayName old /\
       UUID accessory = UUID old /\
       reportedStatus p h
       = Some (match wiFiSatelliteService old with
               | Some service => satelliteStatus service
               | None => UNKNOWN
               end)) /\
  (nth_error cached h = None ->
     exists accessory,
       nth_error (heap p) h = Some accessory /\
       displayName accessory = name (timerRouter t) /\
       UUID accessory = uuid (timerRouter t) /\
       reportedStatus p h = Some UNKNOWN).
Proof.
  cbv zeta. intros Ht.
  destruct (timer_accessory cached routers t Ht) as (r & b & Hin & Hu & Hh).
  split.
  - intros old Hold. rewrite Hold in Hh. simpl in Hh.
    eexists. split; [exact Hh|]. unfold reportedStatus. rewrite Hh.
    repeat split; reflexivity.
  - intros Hnone. rewrite Hnone in Hh. simpl in Hh.
    assert (Er : r = timerRouter t).
    { apply launch_timer_assigned in Ht as (b0 & Hin0 & _).
      assert (Hb : forall r' b', In (r', timerAccessory t, b')
                     (assign generate cached (List.length cached) routers) ->
                   b' = false).
      { intros r' [|] H'; [|reflexivity].
        apply assign_kept in H' as [_ H'].
        apply findCached_Some in H' as (a & Hn & _). congruence. }
      pose proof (Hb _ _ Hin) as ->. pose proof (Hb _ _ Hin0) as ->.
      eapply assign_added_unique; eassumption. }
    subst r. eexists. split; [exact Hh|]. unfold reportedStatus. rewrite Hh.
    repeat split; reflexivity.
Qed.

(** X10. [discoverDevices] never changes [this.accessories]: new
    accessories are not added to it and unregistered ones stay in it.
    An accessory that no timer updates is left on the heap exactly as it
    was in the cache, and no timer updates an unregistered accessory. *)
Theorem discoverDevices_leaves_others (cached : list PlatformAccessory)
        (routers : list RouterConfig) :
  let p := start cached (Some routers) in
  accessories p = seq 0 (List.length cached) /\
  (forall h, (forall t, In t (timers p) -> timerAccessory t <> h) ->
             nth_error (heap p) h = nth_error cached h) /\
  (forall h t, In h (remove (reconcile generate routers cached)) ->
               In t (timers p) -> timerAccessory t <> h).
Proof.
  cbv zeta. split; [apply launch_accessories|]. split.
  - intros h Hno. rewrite launch_heap.
    destruct (lastFor _ h) as [r|] eqn:El; [|reflexivity].
    exfalso. apply lastFor_In in El as (b & Hin).
    apply (Hno (mkTimer r h (effectivePollingInterval r))); [|reflexivity].
    apply launch_timer_assigned. exists b. now split.
  - intros h t Hrem Ht <-.
    apply removed_iff in Hrem as (a & Hn & Hno).
    apply launch_timer_assigned in Ht as ([|] & Hin & _).
    + apply assign_kept in Hin as [Hr Hf].
      apply findCached_Some in Hf as (a' & Hn' & Hu).
      apply (Hno _ Hr). congruence.
    + apply assign_added in Hin as (_ & _ & Hge).
      assert (timerAccessory t < List.length cached)%nat
        by (apply nth_error_Some; congruence).
      lia.
Qed.

(** X11. A restart in the steady state calls the host framework for
    nothing: when every configured router has a cached accessory of its
    UUID and every cached accessory has a configured router of its
    UUID, [discoverDevices] registers and unregisters nothing. *)
Theorem discoverDevices_steady_state (cached : list PlatformAccessory)
        (routers : list RouterConfig) :
  (forall r, In r routers ->
             exists accessory, In accessory cached /\ UUID accessory = uuid r) ->
  (forall accessory, In accessory cached ->
             exists r, In r routers /\ uuid r = UUID accessory) ->
  calls (start cached (Some routers)) = [].
Proof.
  intros Hall Hused. rewrite launch_calls.
  assert (Ea : add (reconcile generate routers cached) = []).
  { apply no_element_nil. intros [r h] Hin.
    unfold reconcile in Hin. simpl in Hin. apply in_added in Hin.
    apply assign_added in Hin as (Hr & Hf & _).
    destruct (Hall r Hr) as (a & Ha & Hu).
    apply In_nth_error in Ha as (i & Hi).
    rewrite findCached_None in Hf. now apply (Hf i a Hi). }
  assert (Er : remove (reconcile generate routers cached) = []).
  { apply no_element_nil. intros h Hin.
    apply removed_iff in Hin as (a & Hn & Hno).
    destruct (Hused a (nth_error_In _ _ Hn)) as (r & Hr & Hu).
    now apply (Hno r Hr). }
  now rewrite Ea, Er.
Qed.

(** X12. Without configured routers, [config.routers] absent or empty,
    [discoverDevices] starts no timer and unregisters every cached
    accessory, one call for each, in the order of the cache. *)
Theorem discoverDevices_no_routers (cached : list PlatformAccessory) :
  start cached None = start cached (Some []) /\
  timers (start cached None) = [] /\
  calls (start cached None)
  = map (fun h => unregisterPlatformAccessories [h])
        (seq 0 (List.length cached)).
Proof.
  split; [reflexivity|].
  change (start cached None) with (start cached (Some [])).
  destruct (launch_effects generate cached []) as (Ht & _).
  split; [exact Ht|]. rewrite launch_calls. simpl. f_equal.
  rewrite <- (filter_agree (fun _ => true)).
  - induction (seq 0 (List.length cached)) as [|x l IH]; simpl; congruence.
  - intros h Hh. apply in_seq in Hh.
    destruct (nth_error cached h) eqn:E; [reflexivity|].
    apply nth_error_None in E. lia.
Qed.

Lemma assign_new_handles (cached : list PlatformAccessory) (next : nat)
      (routers : list RouterConfig) :
  let added := map fst (filter (fun e => negb (snd e))
                          (assign generate cached next routers)) in
  map fst added
  = filter (fun r => match findCached cached (uuid r) with
                     | Some _ => false
                     | None => true
                     end) routers /\
  map snd added = seq next (List.length added).
Proof.
  cbv zeta. revert next.
  induction routers as [|router rest IH]; intros next; simpl; [auto|].
  destruct (findCached cached (uuid router)); simpl.
  - apply IH.
  - destruct (IH (S next)) as [E1 E2]. now rewrite E1, E2.
Qed.

Lemma filter_map_comm {A B : Type} (f : A -> B) (test : B -> bool) (l : list A) :
  filter test (map f l) = map f (filter (fun x => test (f x)) l).
Proof.
  induction l as [|x l IH]; simpl; [reflexivity|].
  destruct (test (f x)); simpl; now rewrite IH.
Qed.

(** The timers on new handles are those of the added routers. *)
Lemma new_timers (cached : list PlatformAccessory) (routers : list RouterConfig) :
  filter (fun t => Nat.leb (List.length cached) (timerAccessory t))
         (timers (start cached (Some routers)))
  = map timerOf (filter (fun e => negb (snd e))
                   (assign generate cached (List.length cached) routers)).
Proof.
  destruct (launch_effects generate cached routers) as (Ht & _).
  rewrite Ht, filter_map_comm. f_equal. apply filter_agree.
  intros [[r h] [|]] Hin; simpl.
  - apply assign_kept in Hin as [_ Hf].
    apply findCached_Some in Hf as (a & Hn & _).
    apply Nat.leb_gt. apply nth_error_Some. congruence.
  - apply assign_added in Hin as (_ & _ & Hge). now apply Nat.leb_le.
Qed.

(** X13. For named routers, the accessories created in a pass are those
    of the configured routers without a cached accessory of their UUID,
    a router listed twice counted twice (the new accessory is not added
    to [this.accessories], so the next lookup misses as well): they get
    the handles that follow the cache, one after the other, their
    timers are on these handles in the order of the configuration, and
    the registration calls name the handles in the same order. *)
Theorem discoverDevices_new_handles (cached : list PlatformAccessory)
        (routers : list RouterConfig) :
  allNamed routers ->
  let p := start cached (Some routers) in
  let created := uncached generate cached routers in
  let newTimers :=
    filter (fun t => Nat.leb (List.length cached) (timerAccessory t)) (timers p) in
  map timerRouter newTimers = created /\
  map timerAccessory newTimers
  = seq (List.length cached) (List.length created) /\
  registered p
  = map (fun h => [h]) (seq (List.length cached) (List.length created)).
Proof.
  intros _. cbv zeta.
  destruct (assign_new_handles cached (List.length cached) routers) as [E1 E2].
  set (added := map fst (filter (fun e => negb (snd e))
                  (assign generate cached (List.length cached) routers))) in *.
  assert (El : List.length added = List.length (uncached generate cached routers)).
  { unfold uncached. rewrite <- E1. now rewrite length_map. }
  rewrite new_timers, !map_map.
  split; [|split].
  - unfold uncached. rewrite <- E1. unfold added. now rewrite map_map.
  - rewrite <- El, <- E2. unfold added. now rewrite map_map.
  - destruct (registered_app _ _ _ snd (fun h : nat => h) _ _
                (launch_calls generate cached routers)) as [Hr _].
    rewrite Hr. unfold reconcile. cbn [add]. fold added.
    rewrite <- El, <- E2. now rewrite map_map.
Qed.

Lemma hasLeadingInteger_parseInt10 (s : string) :
  hasLeadingInteger s = false -> parseInt10 s = None.
Proof.
  unfold hasLeadingInteger, parseInt10, afterSign.
  destruct (trimStart s) as [|c rest]; [reflexivity|].
  destruct (Ascii.eqb c "+" || Ascii.eqb c "-").
  - destruct rest as [|d rest]; [reflexivity|]. simpl. now intros ->.
  - simpl. now intros ->.
Qed.

(** [parseInt] on white space, a sign, digits and a rest that does not
    go on with a digit. *)
Lemma parseInt10_shape (space digits rest : string) :
  allChars isWhiteSpace space = true ->
  digits <> "" -> allChars isDigit digits = true ->
  startsWithDigit rest = false ->
  (parseInt10 (space ++ digits ++ rest) = Some (Z.of_N (digitsValue digits))) /\
  (parseInt10 (space ++ String "+" (digits ++ rest))
   = Some (Z.of_N (digitsValue digits))) /\
  (parseInt10 (space ++ String "-" (digits ++ rest))
   = Some (- Z.of_N (digitsValue digits))%Z).
Proof.
  intros Hs Hne Hd Hr.
  pose proof (takeDigits_prefix _ _ Hd Hr) as Ht.
  apply isEmpty_false in Hne.
  unfold parseInt10.
  split; [|split]; rewrite !(trimStart_spaces space) by exact Hs.
  - destruct digits as [|c ds]; [discriminate|].
    pose proof Hd as Hc. simpl in Hc. apply andb_true_iff in Hc as [Hc _].
    destruct (isDigit_facts c Hc) as (Hw & Hplus & Hminus).
    change (String c ds ++ rest) with (String c (ds ++ rest)) in *.
    cbn [trimStart]. rewrite Hw. cbv zeta. rewrite Hplus, Hminus. simpl orb.
    cbv iota. rewrite Ht. cbn [isEmpty]. cbv iota. f_equal. lia.
  - cbn [trimStart]. change (isWhiteSpace "+") with false. cbv iota zeta.
    change (Ascii.eqb "+" "+") with true.
    change (Ascii.eqb "+" "-") with false. simpl orb. cbv iota.
    rewrite Ht, Hne. f_equal; lia.
  - cbn [trimStart]. change (isWhiteSpace "-") with false. cbv iota zeta.
    change (Ascii.eqb "-" "-") with true.
    change (Ascii.eqb "-" "+") with false. simpl orb. cbv iota.
    rewrite Ht, Hne. f_equal; lia.
Qed.

(** C8, as amended. The polling period is 5000 when [pollingInterval]
    is absent and when its text does not start with an integer (white
    space, at most one sign, then a digit), as for ["abc"].  When it
    does, the period is that leading integer, whatever text follows the
    digits: for white space, an optional sign, digits and a rest that
    does not go on with a digit, the period is the number of the digits
    with that sign (for a minus sign, when the number is not zero), as
    long as a JavaScript number holds it exactly.
    Nothing bounds it from below: the decimal form of zero or of a
    negative integer gives that integer.  For named routers, every
    configured router gets a timer, and the period of a router's timer
    is this value, unchanged. *)
Theorem pollingInterval_period :
  (forall r, pollingInterval r = None -> effectivePollingInterval r = 5000%Z) /\
  (forall r s, pollingInterval r = Some s -> hasLeadingInteger s = false ->
               effectivePollingInterval r = 5000%Z) /\
  hasLeadingInteger "abc" = false /\
  (forall r space digits rest,
     allChars isWhiteSpace space = true ->
     digits <> "" -> allChars isDigit digits = true ->
     startsWithDigit rest = false ->
     (digitsValue digits <= 2 ^ 53)%N ->
     (pollingInterval r = Some (space ++ digits ++ rest) ->
      effectivePollingInterval r = Z.of_N (digitsValue digits)) /\
     (pollingInterval r = Some (space ++ String "+" (digits ++ rest)) ->
      effectivePollingInterval r = Z.of_N (digitsValue digits)) /\
     (digitsValue digits <> 0%N ->
      pollingInterval r = Some (space ++ String "-" (digits ++ rest)) ->
      effectivePollingInterval r = (- Z.of_N (digitsValue digits))%Z)) /\
  (forall r n, (Z.abs n <= 2 ^ 53)%Z -> (n <= 0)%Z ->
               pollingInterval r = Some (decimalZ n) ->
               effectivePollingInterval r = n) /\
  (forall cached routers,
     allNamed routers ->
     let p := start cached (Some routers) in
     map timerRouter (timers p) = routers /\
     forall t, In t (timers p) ->
               timerPeriod t = effectivePollingInterval (timerRouter t)).
Proof.
  unfold effectivePollingInterval, parsedPollingInterval.
  split; [|split; [|split; [|split; [|split]]]].
  - intros r ->. reflexivity.
  - intros r s -> H. simpl. now rewrite hasLeadingInteger_parseInt10.
  - reflexivity.
  - intros r space digits rest Hs Hne Hd Hr _.
    destruct (parseInt10_shape space digits rest Hs Hne Hd Hr)
      as (E1 & E2 & E3).
    split; [|split]; [intros -> | intros -> | intros _ ->]; simpl;
      [now rewrite E1 | now rewrite E2 | now rewrite E3].
  - intros r n _ _ ->. simpl. now rewrite parseInt10_decimalZ.
  - intros cached routers _. cbv zeta.
    destruct (launch_effects generate cached routers) as (Ht & _).
    rewrite Ht. split.
    + rewrite map_map. apply assign_routers.
    + intros t Hin. apply in_map_iff in Hin as (e & <- & _). reflexivity.
Qed.

End MoreReconciliation.

(* ================================================================== *)
(** ** Further properties of the interval callback *)

Lemma sameButStatus_refl (a : PlatformAccessory) : sameButStatus a a.
Proof. unfold sameButStatus. tauto. Qed.

Lemma sameButStatus_trans (a b c : PlatformAccessory) :
  sameButStatus a b -> sameButStatus b c -> sameButStatus a c.
Proof. unfold sameButStatus. intuition congruence. Qed.

Lemma sameButStatus_updateValue (v : WiFiSatelliteStatus) (a : PlatformAccessory) :
  sameButStatus a (updateValue v a).
Proof.
  unfold sameButStatus, updateValue. simpl.
  destruct (wiFiSatelliteService a); simpl; tauto.
Qed.

Section MoreTicks.

Variable hostParser : string -> option string.
Variable pathParser : string -> string.
Variable generate : string -> string.

Local Abbreviation parse := (parseUrl hostParser pathParser).
Local Abbreviation probe := (getRouterStatus hostParser pathParser).
Local Abbreviation fire := (tick hostParser pathParser).
Local Abbreviation run := (runTicks hostParser pathParser).
Local Abbreviation start := (launch generate).

(** What a tick does to the heap: nothing, or one [updateValue] on the
    timer's accessory. *)
Lemma tick_heap (net : Network) (p : Platform) (t : Timer) :
  let p' := fst (fst (fire net p t)) in
  accessories p' = accessories p /\ timers p' = timers p /\
  calls p' = calls p /\
  (heap p' = heap p \/
   exists v, heap p' = updateAt (heap p) (timerAccessory t) (updateValue v)).
Proof.
  cbv zeta. unfold tick.
  destruct (probe net (homepageUrl (timerRouter t))) as [requests [status|error]];
    simpl; repeat split; eauto.
Qed.

Lemma tick_accessory (net : Network) (p : Platform) (t : Timer) (h : nat)
      (a : PlatformAccessory) :
  nth_error (heap p) h = Some a ->
  exists a', nth_error (heap (fst (fst (fire net p t)))) h = Some a' /\
             sameButStatus a a' /\
             (wiFiSatelliteService a <> None -> wiFiSatelliteService a' <> None).
Proof.
  intros Ha. destruct (tick_heap net p t) as (_ & _ & _ & [E | (v & E)]);
    rewrite E.
  - exists a. split; [exact Ha|]. split; [apply sameButStatus_refl | auto].
  - destruct (Nat.eq_dec (timerAccessory t) h) as [<-|Hne].
    + rewrite nth_error_updateAt_same, Ha. simpl.
      eexists. split; [reflexivity|].
      split; [apply sameButStatus_updateValue|].
      unfold updateValue. simpl. destruct (wiFiSatelliteService a); congruence.
    + rewrite nth_error_updateAt_other by exact Hne.
      exists a. split; [exact Ha|]. split; [apply sameButStatus_refl | auto].
Qed.

Lemma runTicks_accessory (schedule : list (nat * Network)) (q p : Platform) :
  run q schedule = Some p ->
  accessories p = accessories q /\ timers p = timers q /\ calls p = calls q /\
  forall h a, nth_error (heap q) h = Some a ->
    exists a', nth_error (heap p) h = Some a' /\ sameButStatus a a' /\
               (wiFiSatelliteService a <> None ->
                wiFiSatelliteService a' <> None).
Proof.
  revert q. induction schedule as [|[i net] later IH]; intros q; simpl.
  - intros H. inversion H; subst. repeat split.
    intros h a Ha. exists a. split; [exact Ha|].
    split; [apply sameButStatus_refl | auto].
  - destruct (nth_error (timers q) i) as [t|]; [|apply IH].
    destruct (tick_heap net q t) as (Ea & Et & Ec & _).
    pose proof (tick_accessory net q t) as Hacc.
    destruct (fire net q t) as [[q1 requests] [[]|error]]; [|discriminate].
    simpl in *. intros H. destruct (IH _ H) as (Ha' & Ht' & Hc' & Hh').
    repeat split; try congruence.
    intros h a Ha. destruct (Hacc h a Ha) as (a1 & H1 & S1 & V1).
    destruct (Hh' h a1 H1) as (a2 & H2 & S2 & V2).
    exists a2. split; [exact H2|].
    split; [eapply sameButStatus_trans; eassumption | auto].
Qed.

(** X14. The ticks change nothing but reported statuses: after any run
    of ticks from any platform, [this.accessories], the timers and the
    calls made to the host framework are as before, and every accessory
    is still on its handle with its display name, UUID, context device,
    information characteristics, service name and [onGet] handler. *)
Theorem runTicks_changes_status_only (schedule : list (nat * Network))
        (q p : Platform) :
  run q schedule = Some p ->
  accessories p = accessories q /\ timers p = timers q /\ calls p = calls q /\
  forall h a, nth_error (heap q) h = Some a ->
    exists a', nth_error (heap p) h = Some a' /\ sameButStatus a a'.
Proof.
  intros H. destruct (runTicks_accessory schedule q p H) as (Ea & Et & Ec & Hh).
  repeat split; try assumption.
  intros h a Ha. destruct (Hh h a Ha) as (a' & H1 & H2 & _). eauto.
Qed.

(** X15. The push path: at any time after the launch, a tick of a
    router's timer whose probe gets a response makes the router's
    accessory report NOT_CONNECTED for a status code in [400,599] and
    CONNECTED for any other response, and leaves every other accessory
    as it is. *)
Theorem tick_reports_status (cached : list PlatformAccessory)
        (routers : list RouterConfig) (schedule : list (nat * Network))
        (p : Platform) (t : Timer) (net : Network) (url : URL)
        (statusCode : option Z) :
  run (start cached (Some routers)) schedule = Some p ->
  In t (timers p) ->
  parse (homepageUrl (timerRouter t)) = Some url ->
  net (requestFor url) = Response statusCode ->
  let p' := fst (fst (fire net p t)) in
  reportedStatus p' (timerAccessory t) = Some (statusOfCode statusCode) /\
  forall h, h <> timerAccessory t -> nth_error (heap p') h = nth_error (heap p) h.
Proof.
  intros Hrun Ht Hparse Hnet. cbv zeta.
  destruct (runTicks_accessory schedule _ p Hrun) as (_ & Etimers & _ & Hh).
  rewrite Etimers in Ht.
  destruct (timer_accessory generate cached routers t Ht)
    as (r & b & _ & _ & Ha0).
  destruct (Hh _ _ Ha0) as (a & Ha & _ & Hsvc).
  assert (Hs : wiFiSatelliteService a <> None) by (apply Hsvc; discriminate).
  unfold tick. rewrite (getRouterStatus_parsed _ _ net _ _ Hparse), Hnet.
  unfold statusOfCode, reportedStatus.
  destruct (truthy statusCode && geNum statusCode 400 && ltNum statusCode 600);
    cbn [fst heap]; (split;
      [rewrite nth_error_updateAt_same, Ha; simpl;
       destruct (wiFiSatelliteService a); [reflexivity | congruence]
      |intros h Hne; apply nth_error_updateAt_other; congruence]).
Qed.

End MoreTicks.

(* ================================================================== *)
(** ** Cached accessories that share a UUID *)

Lemma find_seq_first (f : nat -> bool) (first len h : nat) :
  find f (seq first len) = Some h ->
  forall i, (first <= i < h)%nat -> f i = false.
Proof.
  revert first. induction len as [|len IH]; intros first; simpl; [discriminate|].
  destruct (f first) eqn:E.
  - intros H. inversion H; subst. lia.
  - intros H i Hi. destruct (Nat.eq_dec i first) as [->|Hne]; [exact E|].
    apply (IH (S first) H). lia.
Qed.

Section SharedUuid.

Variable generate : string -> string.

Local Abbreviation uuid := (uuidOf generate).
Local Abbreviation start := (launch generate).

(** X16. When two cached accessories share a UUID, only the first is
    ever reused: no timer updates the second, which stays on the heap as
    it was in the cache, and it is unregistered exactly when the first
    one is, that is, when no configured router has their UUID. *)
Theorem discoverDevices_shared_uuid (cached : list PlatformAccessory)
        (routers : list RouterConfig) (i j : nat) (a b : PlatformAccessory) :
  (i < j)%nat ->
  nth_error cached i = Some a -> nth_error cached j = Some b ->
  UUID a = UUID b ->
  let p := start cached (Some routers) in
  (forall t, In t (timers p) -> timerAccessory t <> j) /\
  nth_error (heap p) j = Some b /\
  (In j (remove (reconcile generate routers cached)) <->
   In i (remove (reconcile generate routers cached))).
Proof.
  intros Hij Ha Hb Hu. cbv zeta.
  assert (Hno : forall t, In t (timers (start cached (Some routers))) ->
                          timerAccessory t <> j).
  { intros t Ht <-.
    apply launch_timer_assigned in Ht as ([|] & Hin & _).
    - apply assign_kept in Hin as [_ Hf].
      pose proof (findCached_Some _ _ _ Hf) as (b' & Hb' & Hu').
      unfold findCached in Hf.
      pose proof (find_seq_first _ _ _ _ Hf i ltac:(lia)) as E.
      simpl in E. rewrite Ha in E. apply String.eqb_neq in E.
      rewrite Hb in Hb'. inversion Hb'; subst b'. apply E.
      now rewrite Hu, Hu'.
    - apply assign_added in Hin as (_ & _ & Hge).
      assert (timerAccessory t < List.length cached)%nat
        by (apply nth_error_Some; congruence).
      lia. }
  split; [exact Hno|]. split.
  - rewrite launch_heap.
    destruct (lastFor _ j) as [r|] eqn:El; [|exact Hb].
    exfalso. apply lastFor_In in El as (known & Hin).
    apply (Hno (mkTimer r j (effectivePollingInterval r))); [|reflexivity].
    apply launch_timer_assigned. exists known. now split.
  - rewrite !removed_iff. split.
    + intros (b' & Hb' & H). rewrite Hb in Hb'. inversion Hb'; subst b'.
      exists a. split; [exact Ha|]. intros r Hr. rewrite Hu. now apply H.
    + intros (a' & Ha' & H). rewrite Ha in Ha'. inversion Ha'; subst a'.
      exists b. split; [exact Hb|]. intros r Hr. rewrite <- Hu. now apply H.
Qed.

End SharedUuid.

(* ================================================================== *)
(** ** The further properties on examples *)

Lemma parseUrl_trailing_space_witness :
  parseUrl exampleHostParser examplePathParser "192.168.1.1  "
  = parseUrl exampleHostParser examplePathParser "192.168.1.1".
Proof.
  exact (parseUrl_trailing_space exampleHostParser examplePathParser
           "192.168.1.1" "  " eq_refl).
Defined.

Lemma parseUrl_host_port_witness :
  parseUrl exampleHostParser examplePathParser "192.168.1.1:8080"
  = Some (mkURL Http "192.168.1.1" (Some 8080%N) "/") /\
  parseUrl exampleHostParser examplePathParser "192.168.1.1:70000" = None.
Proof.
  split.
  - apply (parseUrl_host_port exampleHostParser examplePathParser
             "192.168.1.1" "8080"); (discriminate || reflexivity).
  - apply (parseUrl_host_port exampleHostParser examplePathParser
             "192.168.1.1" "70000"); (discriminate || reflexivity).
Defined.

Lemma getRouterStatus_ignores_credentials_witness :
  fst (getRouterStatus exampleHostParser examplePathParser (respond 200)
         "admin:secret@192.168.1.1")
  = fst (getRouterStatus exampleHostParser examplePathParser (respond 200)
           "192.168.1.1") /\
  fst (getRouterStatus exampleHostParser examplePathParser (respond 200)
         "192.168.1.1")
  = [mkRequest httpGet "192.168.1.1" "" "/" false].
Proof.
  apply (getRouterStatus_ignores_credentials exampleHostParser examplePathParser
           "admin:secret" "192.168.1.1" (respond 200));
    (discriminate || reflexivity).
Defined.

Lemma getRouterStatus_module_witness :
  getModule (requestFor (mkURL Https "router.local" None "/")) = httpsGet /\
  rejectUnauthorized (requestFor (mkURL Https "router.local" None "/")) = false.
Proof.
  apply (getRouterStatus_module exampleHostParser examplePathParser
           "HTTPS://Router.local" (mkURL Https "router.local" None "/")).
  reflexivity.
Defined.

Lemma blank_address_never_requested_witness :
  getRouterStatus exampleHostParser examplePathParser (respond 200) "  "
  = ([], Rejected (InvalidUrl "  ")) /\
  onGet exampleHostParser examplePathParser (respond 200) blankRouter
  = ([], Resolved NOT_CONNECTED) /\
  tick exampleHostParser examplePathParser (respond 200) launchedA
       (mkTimer blankRouter 0 5000)
  = (launchedA, [], Resolved tt).
Proof.
  apply (blank_address_never_requested exampleHostParser examplePathParser
           (respond 200) launchedA (mkTimer blankRouter 0 5000) blankRouter);
    reflexivity.
Defined.

Lemma pollingInterval_leading_integer_witness :
  effectivePollingInterval unitRouter = 5000%Z.
Proof.
  apply (pollingInterval_leading_integer unitRouter 5000%Z "  " "ms");
    try reflexivity.
  vm_compute. discriminate.
Defined.

Lemma discoverDevices_timers_witness :
  map timerRouter (timers launchedA) = [routerA] /\
  hasSatellite launchedA 0 = true.
Proof.
  destruct (discoverDevices_timers exampleGenerate [] [routerA]) as [Horder Hall].
  { intros router [<- | []]. discriminate. }
  split; [exact Horder|].
  destruct (Hall timerA (or_introl eq_refl)) as [Hsat _]. exact Hsat.
Defined.

Lemma discoverDevices_context_and_handler_witness :
  exists accessory service,
    nth_error (heap (launch exampleGenerate [cachedA] (Some [unitRouter; routerA]))) 0
    = Some accessory /\
    contextDevice accessory = Some routerA /\
    wiFiSatelliteService accessory = Some service /\
    satelliteOnGet service = Some routerA.
Proof.
  apply (discoverDevices_context_and_handler exampleGenerate [cachedA]
           [unitRouter; routerA] timerA).
  - intros router [<- | [<- | []]]; discriminate.
  - right. left. reflexivity.
  - intros r [<- | [<- | []]] H; [discriminate | reflexivity].
Defined.

Lemma discoverDevices_keeps_state_witness :
  reportedStatus (launch exampleGenerate [cachedA] (Some [routerA])) 0
  = Some CONNECTED.
Proof.
  destruct (discoverDevices_keeps_state exampleGenerate [cachedA] [routerA]
              timerA (or_introl eq_refl)) as [Hkept _].
  destruct (Hkept cachedA eq_refl) as (accessory & _ & _ & _ & Hstatus).
  exact Hstatus.
Defined.

Lemma discoverDevices_leaves_others_witness :
  nth_error (heap (launch exampleGenerate [cachedA; cachedCopy] (Some [routerA]))) 1
  = Some cachedCopy.
Proof.
  destruct (discoverDevices_leaves_others exampleGenerate [cachedA; cachedCopy]
              [routerA]) as (_ & Hsame & _).
  apply (Hsame 1%nat). intros t [<- | []]. discriminate.
Defined.

Lemma discoverDevices_steady_state_witness :
  calls (launch exampleGenerate [cachedA] (Some [routerA])) = [].
Proof.
  apply (discoverDevices_steady_state exampleGenerate [cachedA] [routerA]).
  - intros r [<- | []]. exists cachedA. split; [now left | reflexivity].
  - intros accessory [<- | []]. exists routerA. split; [now left | reflexivity].
Defined.

Lemma runTicks_changes_status_only_witness :
  timers polledA = timers launchedA /\ calls polledA = calls launchedA.
Proof.
  destruct (runTicks_changes_status_only exampleHostParser examplePathParser
              [(0%nat, respond 200)] launchedA polledA eq_refl)
    as (_ & Htimers & Hcalls & _).
  split; [exact Htimers | exact Hcalls].
Defined.

Lemma tick_reports_status_witness :
  reportedStatus
    (fst (fst (tick exampleHostParser examplePathParser (respond 503)
                 polledA timerA))) 0
  = Some NOT_CONNECTED.
Proof.
  destruct (tick_reports_status exampleHostParser examplePathParser
              exampleGenerate [] [routerA] [(0%nat, respond 200)] polledA timerA
              (respond 503) (mkURL Http "192.168.1.1" None "/") (Some 503%Z)
              eq_refl (or_introl eq_refl) eq_refl eq_refl) as [Hstatus _].
  exact Hstatus.
Defined.

Lemma discoverDevices_shared_uuid_witness :
  nth_error (heap (launch exampleGenerate [cachedA; cachedCopy] (Some [routerA]))) 1
  = Some cachedCopy /\
  ~ In 1%nat (remove (reconcile exampleGenerate [routerA] [cachedA; cachedCopy])).
Proof.
  destruct (discoverDevices_shared_uuid exampleGenerate [cachedA; cachedCopy]
              [routerA] 0 1 cachedA cachedCopy ltac:(lia) eq_refl eq_refl eq_refl)
    as (_ & Hheap & Hremove).
  split; [exact Hheap|]. intros H. apply Hremove in H.
  vm_compute in H. exact H.
Defined.

Lemma discoverDevices_calls_per_accessory_witness :
  registered (launch exampleGenerate [cachedA] (Some [routerB])) = [[1%nat]] /\
  unregistered (launch exampleGenerate [cachedA] (Some [routerB])) = [[0%nat]].
Proof.
  destruct (discoverDevices_calls_per_accessory exampleGenerate [cachedA] [routerB])
    as (Hregistered & Hunregistered & _).
  { intros router [<- | []]. discriminate. }
  split; [exact Hregistered | exact Hunregistered].
Defined.

Lemma discoverDevices_new_handles_witness :
  map timerAccessory
      (filter (fun t => Nat.leb 1 (timerAccessory t))
         (timers (launch exampleGenerate [cachedA]
                    (Some [routerB; routerA; routerB]))))
  = [1%nat; 2%nat] /\
  registered (launch exampleGenerate [cachedA] (Some [routerB; routerA; routerB]))
  = [[1%nat]; [2%nat]].
Proof.
  destruct (discoverDevices_new_handles exampleGenerate [cachedA]
              [routerB; routerA; routerB])
    as (_ & Hhandles & Hregistered).
  { intros router [<- | [<- | [<- | []]]]; discriminate. }
  split; [exact Hhandles | exact Hregistered].
Defined.

Lemma pollingInterval_period_witness :
  effectivePollingInterval routerA = 5000%Z /\
  effectivePollingInterval routerB = 5000%Z /\
  effectivePollingInterval suffixRouter = 12%Z /\
  effectivePollingInterval routerC = (-250)%Z /\
  map timerRouter (timers (launch exampleGenerate [] (Some [routerC])))
  = [routerC] /\
  timerPeriod (mkTimer routerC 0 (-250)) = effectivePollingInterval routerC.
Proof.
  destruct (pollingInterval_period exampleGenerate)
    as (Habsent & Hnone & _ & Hshape & Hlow & Htimers).
  split; [|split; [|split; [|split; [|split]]]].
  - apply Habsent. reflexivity.
  - apply (Hnone routerB "abc"); reflexivity.
  - destruct (Hshape suffixRouter "" "12" "abc") as (Hplain & _);
      [reflexivity | discriminate | reflexivity | reflexivity
      | vm_compute; discriminate |].
    apply Hplain. reflexivity.
  - apply (Hlow routerC (-250)%Z); [vm_compute; discriminate | lia | reflexivity].
  - destruct (Htimers [] [routerC]) as (Hrouters & _).
    { intros router [<- | []]. discriminate. }
    exact Hrouters.
  - destruct (Htimers [] [routerC]) as (_ & Hperiod).
    { intros router [<- | []]. discriminate. }
    apply (Hperiod (mkTimer routerC 0 (-250))). left. reflexivity.
Defined.

(** C8 fails as stated: ["12abc"] is not an integer numeral, and the
    period it gives is 12, not the default. *)
Lemma pollingInterval_text_after_integer :
  pollingInterval suffixRouter = Some "12abc" /\
  isIntegerNumeral "12abc" = false /\
  effectivePollingInterval suffixRouter = 12%Z /\
  effectivePollingInterval suffixRouter <> 5000%Z.
Proof.
  split; [reflexivity|]. split; [reflexivity|]. split; [reflexivity|].
  vm_compute. discriminate.
Qed.
